(** * PowerGenome example notebook: generator, load and transmission tables

    A shallow embedding of [generate_PGdata_example_notebook.ipynb].  The
    notebook is a sequence of cells over kernel globals: it loads settings,
    calls PowerGenome services in a fixed order, writes the resulting tables
    as CSV files (or reads them back when [run_new] is not 1) and finally
    joins the start-year generators with the new builds of later periods.

    What is modelled, and how:
    - a [DataFrame] is a list of column labels and a list of labelled rows;
    - PowerGenome, and Python's [int] on a string, are an interface
      ([External]); every call may raise;
    - a cell is a computation over the kernel state ([Kernel]): the files on
      disk, the log of external calls and file accesses, and the globals that
      later cells read.  What a cell did before it raised stays done;
    - a file is represented by what was written to it; whether a write goes
      through, and what [pd.read_csv] infers from the text of a file, is
      again part of the interface: a write may fail, and a table read back
      need not hold the values that were written. *)

From Stdlib Require Import ZArith QArith String Ascii List.
From stdpp Require Import gmap strings list fin_maps pretty.

Open Scope Z_scope.
Open Scope string_scope.
Open Scope list_scope.

(** ** Exceptions and results *)

Inductive exn :=
| KeyError | TypeError | ValueError | AttributeError | IndexError
| NameError | FileNotFoundError | EmptyDataError | OSError
| ServiceError (msg : string).

Inductive result (A : Type) :=
| Ok (a : A)
| Raise (e : exn).
Arguments Ok {A} a.
Arguments Raise {A} e.

Definition rbind {A B} (r : result A) (f : A -> result B) : result B :=
  match r with Ok a => f a | Raise e => Raise e end.

Fixpoint rmap {A B} (f : A -> result B) (l : list A) : result (list B) :=
  match l with
  | [] => Ok []
  | x :: l' => rbind (f x) (fun y => rbind (rmap f l') (fun ys => Ok (y :: ys)))
  end.

Definition is_ok {A} (r : result A) : bool :=
  match r with Ok _ => true | Raise _ => false end.

(** ** Tables *)

(** A cell holds a missing value, a number or a string.  Numbers are
    rationals: the finite values of Python's [int] and [float]. *)
Inductive cell :=
| NaN
| Num (q : Q)
| Str (s : string).

Definition is_str (c : cell) : bool := match c with Str _ => true | _ => false end.
Definition is_nan (c : cell) : bool := match c with NaN => true | _ => false end.

(** [c == 0] on one value. *)
Definition eq_zero (c : cell) : bool :=
  match c with Num q => Qeq_bool q 0 | _ => false end.

(** A row carries its index label and one value per column. *)
Record DataFrame := mkDF {
  columns : list string;
  rows : list (nat * list cell)
}.

(** [pd.DataFrame()] *)
Definition empty_frame : DataFrame := mkDF [] [].

Fixpoint index_of (c : string) (cols : list string) : option nat :=
  match cols with
  | [] => None
  | c' :: cols' => if String.eqb c c' then Some O else option_map S (index_of c cols')
  end.

Definition has_column (cols : list string) (c : string) : bool :=
  match index_of c cols with Some _ => true | None => false end.

(** The value of a row under column [c]; missing when the row's table has
    no such column (this is what pandas' reindexing delivers). *)
Definition row_get (cols : list string) (r : list cell) (c : string) : cell :=
  match index_of c cols with
  | Some i => nth i r NaN
  | None => NaN
  end.

(** Values of column [c], in row order. *)
Definition column_values (df : DataFrame) (c : string) : list cell :=
  map (fun r => row_get (columns df) (snd r) c) (rows df).

(** [df.loc[:, c]] *)
Definition loc_column (df : DataFrame) (c : string) : result (list cell) :=
  if has_column (columns df) c then Ok (column_values df c) else Raise KeyError.

(** [df.c] (attribute access to a column) *)
Definition attr_column (df : DataFrame) (c : string) : result (list cell) :=
  if has_column (columns df) c then Ok (column_values df c) else Raise AttributeError.

(** Lay a row out again under the labels [cols']. *)
Definition reindex_row (cols cols' : list string) (r : list cell) : list cell :=
  map (row_get cols r) cols'.

(** [df[cols']]: KeyError when a label is not a column of [df]. *)
Definition select (df : DataFrame) (cols' : list string) : result DataFrame :=
  if forallb (has_column (columns df)) cols'
  then Ok (mkDF cols' (map (fun r => (fst r, reindex_row (columns df) cols' (snd r))) (rows df)))
  else Raise KeyError.

(** Labels after writing column [c]: an existing column is overwritten in
    place, a new one is added last. *)
Definition with_column (cols : list string) (c : string) : list string :=
  if has_column cols c then cols else cols ++ [c].

Definition row_set (cols : list string) (r : list cell) (c : string) (v : cell) : list cell :=
  map (fun c' => if String.eqb c' c then v else row_get cols r c') (with_column cols c).

(** [df.loc[:, c] = v] for a scalar [v]. *)
Definition set_scalar (df : DataFrame) (c : string) (v : cell) : DataFrame :=
  mkDF (with_column (columns df) c)
       (map (fun r => (fst r, row_set (columns df) (snd r) c v)) (rows df)).

(** [df.loc[:, c] = s] for a series [s] taken from [df] itself (same index,
    so values are assigned in row order). *)
Definition set_series (df : DataFrame) (c : string) (s : list cell) : DataFrame :=
  mkDF (with_column (columns df) c)
       (map (fun rv => (fst (fst rv), row_set (columns df) (snd (fst rv)) c (snd rv)))
            (combine (rows df) s)).

(** [df.loc[mask, c] = v] for a boolean series [mask] over [df]'s index and
    an existing column [c]. *)
Definition set_where (df : DataFrame) (mask : list bool) (c : string) (v : cell) : DataFrame :=
  mkDF (columns df)
       (map (fun rm => if (snd rm : bool)
                       then (fst (fst rm), row_set (columns df) (snd (fst rm)) c v)
                       else fst rm)
            (combine (rows df) mask)).

(** [pd.concat([a, b])]: the rows of [a] then those of [b], each keeping its
    index label, under the union of the columns ([a]'s first, then the ones
    only [b] has); a value a row does not have is missing. *)
Definition union_columns (ca cb : list string) : list string :=
  ca ++ List.filter (fun c => negb (has_column ca c)) cb.

Definition concat (a b : DataFrame) : DataFrame :=
  let cols := union_columns (columns a) (columns b) in
  mkDF cols
       (map (fun r => (fst r, reindex_row (columns a) cols (snd r))) (rows a) ++
        map (fun r => (fst r, reindex_row (columns b) cols (snd r))) (rows b)).

(** [np.isnan(s)]: defined on numeric series only; a series that holds a
    string is of object dtype and numpy raises TypeError.  (A column is
    taken to be numeric when it holds no string.) *)
Definition np_isnan (s : list cell) : result (list bool) :=
  if existsb is_str s then Raise TypeError else Ok (map is_nan s).

(** [s == 0] *)
Definition series_eq_zero (s : list cell) : list bool := map eq_zero s.

(** Elementwise [+] as pandas evaluates it on object series: strings are
    concatenated, a missing operand gives a missing result, a number and a
    string raise TypeError. *)
Definition add_cell (x y : cell) : result cell :=
  match x, y with
  | NaN, _ | _, NaN => Ok NaN
  | Str a, Str b => Ok (Str (a +:+ b))
  | Num a, Num b => Ok (Num (a + b))
  | _, _ => Raise TypeError
  end.

(** [s + t] for a Python string [t] and a series [s] of object dtype (the
    result of an earlier [+] on strings is one). *)
Definition object_add_str (s : list cell) (t : string) : result (list cell) :=
  rmap (fun x => add_cell x (Str t)) s.

(** [s + t] for a Python string [t] and a column [s] of a frame.  A
    non-empty column without any string is numeric and numpy refuses the
    operation whatever the values. *)
Definition series_add_str (s : list cell) (t : string) : result (list cell) :=
  match s with
  | [] => Ok []
  | _ => if existsb is_str s then object_add_str s t else Raise TypeError
  end.

(** [s1 + s2] for two series of one frame. *)
Definition series_add (s1 s2 : list cell) : result (list cell) :=
  rmap (fun xy => add_cell (fst xy) (snd xy)) (combine s1 s2).

(** [str(z)] for a Python int. *)
Definition py_str (z : Z) : string := pretty z.

(** [int(x)] for a float: truncation towards zero. *)
Definition trunc (q : Q) : Z := Z.quot (Qnum q) (Zpos (Qden q)).

(** ** CSV files *)

(** A file written with [index=False] keeps the header and the values of
    each row, not the index labels.  A file is represented by the header
    and the values that were written to it; the text they are rendered to,
    and what a reader makes of that text, is the business of
    [parse_text] below. *)
Record Csv := mkCsv {
  header : list string;
  records : list (list cell)
}.

(** Content of [df.to_csv(path, index=False)]. *)
Definition csv_of (df : DataFrame) : Csv :=
  mkCsv (columns df) (map snd (rows df)).

(** What the operating system makes of a write: the file is stored, or the
    write fails with an exception and leaves the path as it was ([None]:
    the file could not be opened) or with what had been written by then. *)
Inductive outcome :=
| Stored
| Failed (e : exn) (left : option Csv).

(** [df.reset_index(drop=True)]: the same rows labelled 0, 1, 2, ... *)
Definition reset_index (df : DataFrame) : DataFrame :=
  mkDF (columns df) (combine (seq 0 (length (rows df))) (map snd (rows df))).

(** ** Python values of the settings *)

Set Warnings "-register-all".


Inductive pyval :=
| PyNone
| PyInt (z : Z)
| PyStr (s : string)
| PyList (l : list pyval)
| PyDict (d : list (string * pyval)).

(** [len(v)] *)
Definition py_len (v : pyval) : result nat :=
  match v with
  | PyStr s => Ok (String.length s)
  | PyList l => Ok (length l)
  | PyDict d => Ok (length d)
  | PyNone | PyInt _ => Raise TypeError
  end.

(** A settings object: configuration keys to values. *)
Abbreviation Settings := (gmap string pyval).

(** [d[k]] on a dict of settings objects keyed by scenario name. *)
Definition getitem (d : gmap string Settings) (k : string) : result Settings :=
  match d !! k with Some v => Ok v | None => Raise KeyError end.

(** [scenario_settings] is a dict keyed by planning period, in insertion
    order; [d[year]] finds the entry of that key. *)
Fixpoint dict_get {V} (year : Z) (d : list (Z * V)) : result V :=
  match d with
  | [] => Raise KeyError
  | (y, v) :: d' => if Z.eqb year y then Ok v else dict_get year d'
  end.

(** [s.replace(old, new)] for a non-empty [old]: occurrences are replaced
    from the left, without overlap.  [skip] counts the characters of a
    match still to be passed over. *)
Fixpoint replace_from (old new : string) (skip : nat) (s : string) : string :=
  match s with
  | EmptyString => EmptyString
  | String c s' =>
      match skip with
      | S n => replace_from old new n s'
      | O => if String.prefix old s
             then new +:+ replace_from old new (String.length old - 1) s'
             else String c (replace_from old new O s')
      end
  end.

Definition str_replace (old new s : string) : string := replace_from old new O s.

(** [old in s] *)
Fixpoint occurs (old s : string) : bool :=
  String.prefix old s ||
  match s with
  | EmptyString => false
  | String _ s' => occurs old s'
  end.

(** ** The external library *)

(** PowerGenome as the notebook calls it, with the database connection of
    [init_pudl_connection()] fixed, and Python's [int] on a string.
    [create_new_generators s] stands for
    [GeneratorClusters(pudl_engine, pudl_out, s).create_new_generators()],
    likewise [create_all_generators].

    The last two fields are the file system and pandas's CSV parser.
    [write_text fs path f] is the outcome of writing [f] to [path] when the
    files are [fs].  [parse_text f] is what the parser reads in the text of
    a file that has a header: the column names and the rows of values it
    infers, which need not be the names and values written (a string of
    digits is read as a number, a string such as [NA] as a missing value,
    a repeated name is changed). *)
Record External := {
  create_new_generators : Settings -> result DataFrame;
  create_all_generators : Settings -> result DataFrame;
  make_final_load_curves : Settings -> result DataFrame;
  add_misc_gen_values : DataFrame -> Settings -> result DataFrame;
  make_generator_variability : DataFrame -> result DataFrame;
  reduce_time_domain :
    DataFrame -> DataFrame -> Settings -> result (DataFrame * DataFrame * DataFrame);
  agg_transmission_constraints : Settings -> result DataFrame;
  load_ipm_shapefile : Settings -> result DataFrame;
  transmission_line_distance : DataFrame -> DataFrame -> Settings -> result DataFrame;
  network_line_loss : DataFrame -> Settings -> result DataFrame;
  network_reinforcement_cost : DataFrame -> Settings -> result DataFrame;
  network_max_reinforcement : DataFrame -> Settings -> result DataFrame;
  int_of_str : string -> result Z;
  write_text : gmap string Csv -> string -> Csv -> outcome;
  parse_text : Csv -> list string * list (list cell)
}.

(** [int(x)] on a cell value: a missing value cannot be converted. *)
Definition py_int (ext : External) (c : cell) : result Z :=
  match c with
  | NaN => Raise ValueError
  | Num q => Ok (trunc q)
  | Str s => int_of_str ext s
  end.

(** [pd.read_csv] on the content of a file: a file without any column
    raises EmptyDataError; otherwise the table has the names and values the
    parser reads, the rows labelled 0, 1, 2, ... *)
Definition frame_of (ext : External) (f : Csv) : result DataFrame :=
  match header f with
  | [] => Raise EmptyDataError
  | _ => let values := snd (parse_text ext f) in
         Ok (mkDF (fst (parse_text ext f)) (combine (seq 0 (length values)) values))
  end.

(** ** Kernel state *)

Inductive service :=
| CreateNewGenerators | CreateAllGenerators | MakeFinalLoadCurves
| AddMiscGenValues | MakeGeneratorVariability | ReduceTimeDomain
| AggTransmissionConstraints | LoadIpmShapefile | TransmissionLineDistance
| NetworkLineLoss | NetworkReinforcementCost | NetworkMaxReinforcement.

Inductive event :=
| Call (s : service)
| ToCsv (path : string)
| ReadCsv (path : string).

(** The files on disk, the log of what the run did, and the globals that
    are read after the statement that binds them.  ([load_curves],
    [gen_variability], [long_duration_storage], [model_regions_gdf] and [gc]
    are only used where they are bound and are let-bound below.) *)
Record Kernel := mkKernel {
  files : gmap string Csv;
  log : list event;
  new_gen : option DataFrame;
  all_gens : option DataFrame;
  reduced_resource_profile : option DataFrame;
  reduced_load_profile : option DataFrame;
  transmission : option DataFrame;
  all_gens_multi_year : option DataFrame
}.

(** A kernel just started, over the files [fs]. *)
Definition fresh_kernel (fs : gmap string Csv) : Kernel :=
  mkKernel fs [] None None None None None None.

Definition M (A : Type) : Type := Kernel -> Kernel * result A.

Definition ret {A} (a : A) : M A := fun k => (k, Ok a).
Definition raise {A} (e : exn) : M A := fun k => (k, Raise e).
Definition bind {A B} (m : M A) (f : A -> M B) : M B :=
  fun k => match m k with
           | (k', Ok a) => f a k'
           | (k', Raise e) => (k', Raise e)
           end.
Definition lift {A} (r : result A) : M A := fun k => (k, r).

Declare Scope nb_scope.
Delimit Scope nb_scope with nb.
Notation "'let*' x ':=' m 'in' f" := (bind m (fun x => f))
  (at level 10, x binder, f at level 200) : nb_scope.
Notation "m ';;' f" := (bind m (fun _ => f))
  (at level 100, f at level 200, right associativity) : nb_scope.
Open Scope nb_scope.

(** The kernel after one more logged event, and after a file is written. *)
Definition add_log (e : event) (k : Kernel) : Kernel :=
  mkKernel (files k) (log k ++ [e]) (new_gen k) (all_gens k)
           (reduced_resource_profile k) (reduced_load_profile k)
           (transmission k) (all_gens_multi_year k).

Definition write_file (path : string) (f : Csv) (k : Kernel) : Kernel :=
  mkKernel (<[path := f]> (files k)) (log k) (new_gen k) (all_gens k)
           (reduced_resource_profile k) (reduced_load_profile k)
           (transmission k) (all_gens_multi_year k).

Definition emit (e : event) : M unit := fun k => (add_log e k, Ok tt).

(** A call into the library: logged, then its result or its exception. *)
Definition call {A} (s : service) (r : result A) : M A :=
  emit (Call s) ;; lift r.

(** Reading a global that no statement has bound yet is a NameError. *)
Definition read (g : Kernel -> option DataFrame) : M DataFrame :=
  fun k => match g k with Some df => (k, Ok df) | None => (k, Raise NameError) end.

Definition set_new_gen (df : DataFrame) : M unit :=
  fun k => (mkKernel (files k) (log k) (Some df) (all_gens k)
                     (reduced_resource_profile k) (reduced_load_profile k)
                     (transmission k) (all_gens_multi_year k), Ok tt).
Definition set_all_gens (df : DataFrame) : M unit :=
  fun k => (mkKernel (files k) (log k) (new_gen k) (Some df)
                     (reduced_resource_profile k) (reduced_load_profile k)
                     (transmission k) (all_gens_multi_year k), Ok tt).
Definition set_reduced_resource_profile (df : DataFrame) : M unit :=
  fun k => (mkKernel (files k) (log k) (new_gen k) (all_gens k)
                     (Some df) (reduced_load_profile k)
                     (transmission k) (all_gens_multi_year k), Ok tt).
Definition set_reduced_load_profile (df : DataFrame) : M unit :=
  fun k => (mkKernel (files k) (log k) (new_gen k) (all_gens k)
                     (reduced_resource_profile k) (Some df)
                     (transmission k) (all_gens_multi_year k), Ok tt).
Definition set_transmission (df : DataFrame) : M unit :=
  fun k => (mkKernel (files k) (log k) (new_gen k) (all_gens k)
                     (reduced_resource_profile k) (reduced_load_profile k)
                     (Some df) (all_gens_multi_year k), Ok tt).
Definition set_all_gens_multi_year (df : DataFrame) : M unit :=
  fun k => (mkKernel (files k) (log k) (new_gen k) (all_gens k)
                     (reduced_resource_profile k) (reduced_load_profile k)
                     (transmission k) (Some df), Ok tt).

(** [df.to_csv(path, index=False)]: logged, then the file is stored or
    the write fails. *)
Definition to_csv (ext : External) (df : DataFrame) (path : string) : M unit :=
  emit (ToCsv path) ;;
  fun k => match write_text ext (files k) path (csv_of df) with
           | Stored => (write_file path (csv_of df) k, Ok tt)
           | Failed e None => (k, Raise e)
           | Failed e (Some f) => (write_file path f k, Raise e)
           end.

(** [pd.read_csv(path)] *)
Definition read_csv (ext : External) (path : string) : M DataFrame :=
  emit (ReadCsv path) ;;
  fun k => match files k !! path with
           | Some f => (k, frame_of ext f)
           | None => (k, Raise FileNotFoundError)
           end.

Fixpoint for_each {A} (l : list A) (body : A -> M unit) : M unit :=
  match l with
  | [] => ret tt
  | x :: l' => body x ;; for_each l' body
  end.

(** ** The notebook *)

(** What the cells before cell 4 leave behind: the settings path as a
    string ([str(cwd / run_folder / settings_file)]), the loaded settings,
    the scenario settings built from them and the scenario name. *)
Record Inputs := mkInputs {
  settings_path : string;
  settings : Settings;
  scenario_settings : list (Z * gmap string Settings);
  scenario : string
}.

Record Env := mkEnv {
  inputs : Inputs;
  all_periods : list Z;
  start_year : Z;
  run_new : Z;
  file_prefix : string
}.

(** Cell 4:
<<
all_periods = list(scenario_settings.keys())
start_year = all_periods[0]
run_new = 1
file_prefix = str(settings_path).replace('.yml','_')
>> *)
Definition cell4 (inp : Inputs) : result Env :=
  match map fst (scenario_settings inp) with
  | [] => Raise IndexError
  | y :: _ =>
      Ok (mkEnv inp (map fst (scenario_settings inp)) y 1
                (str_replace ".yml" "_" (settings_path inp)))
  end.

(** The same kernel with the flag edited by hand, as one does to reuse the
    files of an earlier run. *)
Definition with_run_new (flag : Z) (env : Env) : Env :=
  mkEnv (inputs env) (all_periods env) (start_year env) flag (file_prefix env).

(** [scenario_settings[year][scenario]] *)
Definition scenario_of (env : Env) (year : Z) : result Settings :=
  rbind (dict_get year (scenario_settings (inputs env)))
        (fun d => getitem d (scenario (inputs env))).

(** [len(settings['region_aggregations'])] *)
Definition len_region_aggregations (s : Settings) : result nat :=
  match s !! "region_aggregations" with
  | Some v => py_len v
  | None => Raise KeyError
  end.

(** [all_periods[0]] *)
Definition first_period (env : Env) : result Z :=
  match all_periods env with
  | y :: _ => Ok y
  | [] => Raise IndexError
  end.

(** The path of an output file: [file_prefix + name]. *)
Definition csv_path (env : Env) (name : string) : string := file_prefix env +:+ name.

Section Notebook.

Variable ext : External.
Variable env : Env.

Let st : Settings := settings (inputs env).

(** Cell 5, the loop over the periods after the first:
<<
for year in all_periods[1:]:
    gc = GeneratorClusters(pudl_engine, pudl_out, scenario_settings[year][scenario])
    new_gen_year = gc.create_new_generators()
    new_gen_year.loc[:,'operating_year'] = year
    new_gen = pd.concat([new_gen, new_gen_year])
>> *)
Definition new_gen_body (year : Z) : M unit :=
  let* s := lift (scenario_of env year) in
  let* new_gen_year := call CreateNewGenerators (create_new_generators ext s) in
  let new_gen_year := set_scalar new_gen_year "operating_year" (Num (inject_Z year)) in
  let* acc := read new_gen in
  set_new_gen (concat acc new_gen_year).

Definition new_gen_loop : M unit :=
  for_each (tail (all_periods env)) new_gen_body.

(** Cell 5, the transmission block, under [if len(...) > 1]. *)
Definition transmission_block : M unit :=
  let* n := lift (len_region_aggregations st) in
  if Nat.ltb 1 n then
    let* t := call AggTransmissionConstraints (agg_transmission_constraints ext st) in
    set_transmission t ;;
    let* model_regions_gdf := call LoadIpmShapefile (load_ipm_shapefile ext st) in
    let* t := call TransmissionLineDistance
                   (transmission_line_distance ext t model_regions_gdf st) in
    set_transmission t ;;
    let* t := call NetworkLineLoss (network_line_loss ext t st) in
    set_transmission t ;;
    let* t := call NetworkReinforcementCost (network_reinforcement_cost ext t st) in
    set_transmission t ;;
    let* t := call NetworkMaxReinforcement (network_max_reinforcement ext t st) in
    set_transmission t ;;
    to_csv ext t (csv_path env "transmission.csv")
  else ret tt.

(** Cell 5: the fresh computation, under [if run_new==1]. *)
Definition cell5 : M unit :=
  if Z.eqb (run_new env) 1 then
    set_new_gen empty_frame ;;
    new_gen_loop ;;
    let* s0 := lift (scenario_of env (start_year env)) in
    let* load_curves := call MakeFinalLoadCurves (make_final_load_curves ext s0) in
    let* s0 := lift (scenario_of env (start_year env)) in
    let* ag := call CreateAllGenerators (create_all_generators ext s0) in
    set_all_gens ag ;;
    let* ag := call AddMiscGenValues (add_misc_gen_values ext ag st) in
    set_all_gens ag ;;
    let* ng := read new_gen in
    let* ng := call AddMiscGenValues (add_misc_gen_values ext ng st) in
    set_new_gen ng ;;
    let* gen_variability :=
      call MakeGeneratorVariability (make_generator_variability ext ag) in
    let* s0 := lift (scenario_of env (start_year env)) in
    let* '(rrp, rlp, long_duration_storage) :=
      call ReduceTimeDomain (reduce_time_domain ext gen_variability load_curves s0) in
    set_reduced_resource_profile rrp ;;
    set_reduced_load_profile rlp ;;
    transmission_block ;;
    to_csv ext rlp (csv_path env "reduced_load_profile.csv") ;;
    to_csv ext rrp (csv_path env "reduced_resource_profile.csv") ;;
    to_csv ext ag (csv_path env "all_gens.csv") ;;
    to_csv ext ng (csv_path env "new_gen.csv")
  else ret tt.

(** Cell 6: the reload, under [if run_new!=1]. *)
Definition cell6 : M unit :=
  if negb (Z.eqb (run_new env) 1) then
    let* t := read_csv ext (csv_path env "reduced_load_profile.csv") in
    set_reduced_load_profile t ;;
    let* t := read_csv ext (csv_path env "reduced_resource_profile.csv") in
    set_reduced_resource_profile t ;;
    let* t := read_csv ext (csv_path env "all_gens.csv") in
    set_all_gens t ;;
    let* t := read_csv ext (csv_path env "new_gen.csv") in
    set_new_gen t ;;
    let* n := lift (len_region_aggregations st) in
    if Nat.ltb 1 n then
      let* t := read_csv ext (csv_path env "transmission.csv") in
      set_transmission t
    else ret tt
  else ret tt.

(** Cell 7, first statement: the series assigned to [tech],
<<
all_gens.loc[:, 'Resource'] + '-' + all_gens.loc[:,'region'] + '-'
  + all_gens.loc[:,'cluster'].map(int).map(str)
>>
    evaluated from the left. *)
Definition tech_series (ag : DataFrame) : result (list cell) :=
  rbind (loc_column ag "Resource") (fun resource =>
  rbind (series_add_str resource "-") (fun s =>
  rbind (loc_column ag "region") (fun region =>
  rbind (series_add s region) (fun s =>
  rbind (object_add_str s "-") (fun s =>
  rbind (loc_column ag "cluster") (fun cluster =>
  rbind (rmap (py_int ext) cluster) (fun ints =>
  series_add s (map (fun z => Str (py_str z)) ints)))))))).

(** Cell 7, the remaining statements on one pair of tables:
<<
all_gens_multi_year = pd.concat([all_gens, new_gen])
all_gens_multi_year = all_gens_multi_year[all_gens.columns]
>> *)
Definition concat_restrict (ag ng : DataFrame) : result DataFrame :=
  select (concat ag ng) (columns ag).

(** Cell 7: post-processing. *)
Definition cell7 : M unit :=
  let* ag := read all_gens in
  let* s := lift (tech_series ag) in
  set_all_gens (set_series ag "tech" s) ;;
  let* ag := read all_gens in
  let* ng := read new_gen in
  set_all_gens_multi_year (concat ag ng) ;;
  let* m := read all_gens_multi_year in
  let* ag := read all_gens in
  let* m := lift (select m (columns ag)) in
  set_all_gens_multi_year m ;;
  let* y := lift (first_period env) in
  let* oy := lift (attr_column m "operating_year") in
  let* mask := lift (np_isnan oy) in
  set_all_gens_multi_year (set_where m mask "operating_year" (Num (inject_Z y))) ;;
  let* y := lift (first_period env) in
  let* m := read all_gens_multi_year in
  let* oy := lift (attr_column m "operating_year") in
  set_all_gens_multi_year
    (set_where m (series_eq_zero oy) "operating_year" (Num (inject_Z y))).

(** Cells 5 to 7 in order. *)
Definition run_cells : M unit := cell5 ;; cell6 ;; cell7.

End Notebook.

(** The notebook from cell 4 on, in a kernel just started. *)
Definition notebook (ext : External) (inp : Inputs) (fs : gmap string Csv)
  : Kernel * result unit :=
  match cell4 inp with
  | Ok env => run_cells ext env (fresh_kernel fs)
  | Raise e => (fresh_kernel fs, Raise e)
  end.

(** ** A small instance

    A stand-in for PowerGenome with one new build per later period and three
    start-year generators, and sample settings after the notebook's own
    ([US_National/US_N_settings.yml], scenario [p6]).  It is used to run
    the cells on concrete inputs. *)
Module Sample.

Definition parse_int (s : string) : result Z :=
  if String.eqb s "1" then Ok 1
  else if String.eqb s "2" then Ok 2
  else if String.eqb s "3" then Ok 3
  else Raise ValueError.

Definition new_builds : DataFrame :=
  mkDF ["Resource"; "region"; "cluster"; "Inv_cost_per_MWyr"]
       [(O, [Str "solar"; Str "CA"; Num 1; Num 90000])].

Definition start_year_gens : DataFrame :=
  mkDF ["Resource"; "region"; "cluster"; "operating_year"]
       [(O, [Str "coal"; Str "CA"; Num 1; Num 1990]);
        (1%nat, [Str "gas"; Str "TX"; Num (5 # 2); NaN]);
        (2%nat, [Str "wind"; Str "TX"; Str "3"; Num 0])].

Definition profile (name : string) : DataFrame :=
  mkDF [name] [(O, [Num 1]); (1%nat, [Num 2])].

Definition lines : DataFrame :=
  mkDF ["Network_lines"] [(O, [Num 1])].

Definition add_col (c : string) (df : DataFrame) (_ : Settings) : result DataFrame :=
  Ok (set_scalar df c (Num 1)).

(** A stand-in for the parser, right on the tables of this instance: a
    column in which every value reads as a number comes back as numbers,
    any other column as it was written. *)
Definition reads_as_number (c : cell) : bool :=
  match c with
  | Str s => is_ok (parse_int s)
  | _ => true
  end.

Definition read_value (c : cell) : cell :=
  match c with
  | Str s => match parse_int s with Ok z => Num (inject_Z z) | Raise _ => c end
  | _ => c
  end.

Definition read_values (f : Csv) : list (list cell) :=
  map (fun r =>
         map (fun ic => if forallb (fun r' => reads_as_number (nth (fst ic) r' NaN))
                                   (records f)
                        then read_value (snd ic) else snd ic)
             (combine (seq 0 (length r)) r))
      (records f).

Definition pg : External := {|
  create_new_generators := fun _ => Ok new_builds;
  create_all_generators := fun _ => Ok start_year_gens;
  make_final_load_curves := fun _ => Ok (profile "load");
  add_misc_gen_values := fun df _ => Ok df;
  make_generator_variability := fun _ => Ok (profile "cf");
  reduce_time_domain := fun v l _ => Ok (v, l, profile "storage");
  agg_transmission_constraints := fun _ => Ok lines;
  load_ipm_shapefile := fun _ => Ok (profile "geometry");
  transmission_line_distance := fun df _ => add_col "distance_mile" df;
  network_line_loss := add_col "Line_Loss_Percentage";
  network_reinforcement_cost := add_col "Line_Reinforcement_Cost_per_MW_yr";
  network_max_reinforcement := add_col "Line_Max_Reinforcement_MW";
  int_of_str := parse_int;
  write_text := fun _ _ _ => Stored;
  parse_text := fun f => (header f, read_values f)
|}.

Definition regions (n : nat) : pyval :=
  PyDict (map (fun i => (pretty i, PyList [])) (seq 0 n)).

Definition settings_with (n : nat) : Settings :=
  {[ "region_aggregations" := regions n ]}.

Definition inputs_with (path : string) (periods : list Z) (n : nat) : Inputs :=
  mkInputs path (settings_with n)
           (map (fun y => (y, {[ "p6" := settings_with n ]})) periods) "p6".

Definition path : string := "US_National/US_N_settings.yml".

Definition two_periods : Inputs := inputs_with path [2025; 2030] 2.
Definition three_periods : Inputs := inputs_with path [2025; 2030; 2035] 2.
Definition one_region : Inputs := inputs_with path [2025; 2030] 1.

(** A start-year table with a generator whose cluster is missing. *)
Definition null_cluster_gens : DataFrame :=
  mkDF ["Resource"; "region"; "cluster"; "operating_year"]
       [(O, [Str "coal"; Str "CA"; Num 1; Num 1990]);
        (1%nat, [Str "gas"; Str "TX"; NaN; NaN])].

(** A kernel that holds the two generator tables and nothing else. *)
Definition loaded (ag ng : DataFrame) : Kernel :=
  mkKernel ∅ [] (Some ng) (Some ag) None None None None.

(** The globals of cell 4 for these inputs. *)
Definition env_of (inp : Inputs) : Env :=
  match cell4 inp with
  | Ok env => env
  | Raise _ => mkEnv inp [] 0 1 ""
  end.

(** The kernel after cell 5, started without any file. *)
Definition computed (inp : Inputs) : Kernel :=
  fst (cell5 pg (env_of inp) (fresh_kernel ∅)).

(** The kernel after cell 7. *)
Definition finished (inp : Inputs) : Kernel :=
  fst (cell7 pg (env_of inp) (computed inp)).

(** The same library with a line-loss service that is down. *)
Definition pg_line_loss_down : External := {|
  create_new_generators := create_new_generators pg;
  create_all_generators := create_all_generators pg;
  make_final_load_curves := make_final_load_curves pg;
  add_misc_gen_values := add_misc_gen_values pg;
  make_generator_variability := make_generator_variability pg;
  reduce_time_domain := reduce_time_domain pg;
  agg_transmission_constraints := agg_transmission_constraints pg;
  load_ipm_shapefile := load_ipm_shapefile pg;
  transmission_line_distance := transmission_line_distance pg;
  network_line_loss := fun _ _ => Raise (ServiceError "line loss");
  network_reinforcement_cost := network_reinforcement_cost pg;
  network_max_reinforcement := network_max_reinforcement pg;
  int_of_str := int_of_str pg;
  write_text := write_text pg;
  parse_text := parse_text pg
|}.


(** Start-year generators without an operating-year column, and with an
    operating year given as text. *)
Definition gens_without_year : DataFrame :=
  mkDF ["Resource"; "region"; "cluster"]
       [(O, [Str "coal"; Str "CA"; Num 1])].

Definition gens_with_text_year : DataFrame :=
  mkDF ["Resource"; "region"; "cluster"; "operating_year"]
       [(O, [Str "coal"; Str "CA"; Num 1; Str "1990"])].

(** A single planning period, and a scenario name that is not defined. *)
Definition one_period : Inputs := inputs_with path [2025] 2.

Definition unknown_scenario : Inputs :=
  mkInputs path (settings_with 2)
           [(2025, {[ "p6" := settings_with 2 ]}); (2030, {[ "p6" := settings_with 2 ]})]
           "p7".

(** Settings without the [region_aggregations] key. *)
Definition no_regions : Inputs :=
  mkInputs path ∅ [(2025, {[ "p6" := ∅ ]}); (2030, {[ "p6" := ∅ ]})] "p6".

End Sample.

(** ** Notions used to state the properties *)

(** What the two last statements of cell 7 do to one operating year. *)
Definition fill (y : Z) (c : cell) : cell :=
  if is_nan c || eq_zero c then Num (inject_Z y) else c.

(** An operating year that is there: a number other than zero. *)
Definition populated (c : cell) : Prop :=
  exists q, c = Num q /\ ~ (q == 0)%Q.

(** The settings configure more than one region aggregation. *)
Definition more_than_one_region (s : Settings) : Prop :=
  exists n, len_region_aggregations s = Ok n /\ (1 < n)%nat.

(** The calls of the transmission block. *)
Definition transmission_service (s : service) : bool :=
  match s with
  | AggTransmissionConstraints | LoadIpmShapefile | TransmissionLineDistance
  | NetworkLineLoss | NetworkReinforcementCost | NetworkMaxReinforcement => true
  | _ => false
  end.

(** An event of the transmission block: one of its calls, or the write of
    the transmission file at [path]. *)
Definition transmission_event (path : string) (e : event) : bool :=
  match e with
  | Call s => transmission_service s
  | ToCsv p => String.eqb p path
  | ReadCsv _ => false
  end.

(** The events of the transmission block, in the order of the source. *)
Definition transmission_events (path : string) : list event :=
  [Call AggTransmissionConstraints; Call LoadIpmShapefile;
   Call TransmissionLineDistance; Call NetworkLineLoss;
   Call NetworkReinforcementCost; Call NetworkMaxReinforcement; ToCsv path].

(** The operating years of a table, in row order. *)
Definition operating_years (df : DataFrame) : list cell :=
  column_values df "operating_year".

(** The two fills of cell 7 on a table [m]. *)
Definition fill_nan (y : Z) (m : DataFrame) : DataFrame :=
  set_where m (map is_nan (operating_years m)) "operating_year" (Num (inject_Z y)).

Definition fill_zero (y : Z) (m : DataFrame) : DataFrame :=
  set_where m (series_eq_zero (operating_years m)) "operating_year" (Num (inject_Z y)).

(** The tags the loop of cell 5 gives to the rows of each later period. *)
Definition period_tags (later : list Z) (outs : list DataFrame) : list cell :=
  flat_map (fun yo => repeat (Num (inject_Z (fst yo))) (length (rows (snd yo))))
           (combine later outs).

(** The table the loop of cell 5 has accumulated from the outputs [outs] of
    the service for the periods [later], starting from [acc]. *)
Definition tag_period (y : Z) (out : DataFrame) : DataFrame :=
  set_scalar out "operating_year" (Num (inject_Z y)).

Fixpoint accumulate (acc : DataFrame) (later : list Z) (outs : list DataFrame)
  : DataFrame :=
  match later, outs with
  | y :: later', out :: outs' => accumulate (concat acc (tag_period y out)) later' outs'
  | _, _ => acc
  end.

(** [outs] are the new builds the service returns for the periods [later]. *)
Definition new_builds_of (ext : External) (env : Env)
    (later : list Z) (outs : list DataFrame) : Prop :=
  Forall2 (fun y out => exists s, scenario_of env y = Ok s /\
                                  create_new_generators ext s = Ok out)
          later outs.

(** The four services of the transmission block composed in the order of
    the source, on the output of the aggregation service. *)
Definition transmission_pipeline (ext : External) (st : Settings) : result DataFrame :=
  rbind (agg_transmission_constraints ext st) (fun t0 =>
  rbind (load_ipm_shapefile ext st) (fun model_regions_gdf =>
  rbind (transmission_line_distance ext t0 model_regions_gdf st) (fun t1 =>
  rbind (network_line_loss ext t1 st) (fun t2 =>
  rbind (network_reinforcement_cost ext t2 st) (fun t3 =>
  network_max_reinforcement ext t3 st))))).

(** The start-year tables as the services deliver them; [acc] is the table
    the loop has accumulated. *)
Definition start_year_tables (ext : External) (env : Env) (acc : DataFrame)
    (ag ng rrp rlp : DataFrame) : Prop :=
  exists s0 lc ag0 gv lds,
    scenario_of env (start_year env) = Ok s0 /\
    make_final_load_curves ext s0 = Ok lc /\
    create_all_generators ext s0 = Ok ag0 /\
    add_misc_gen_values ext ag0 (settings (inputs env)) = Ok ag /\
    add_misc_gen_values ext acc (settings (inputs env)) = Ok ng /\
    make_generator_variability ext ag = Ok gv /\
    reduce_time_domain ext gv lc s0 = Ok (rrp, rlp, lds).

(** The kernel a completed cell 5 leaves, from the kernel [k] it started
    in: [n] later periods, the four tables, and the transmission table when
    the block was entered. *)
Definition computed_kernel (env : Env) (k : Kernel) (n : nat)
    (ag ng rrp rlp : DataFrame) (t : option DataFrame) : Kernel :=
  mkKernel
    (<[csv_path env "new_gen.csv" := csv_of ng]>
      (<[csv_path env "all_gens.csv" := csv_of ag]>
        (<[csv_path env "reduced_resource_profile.csv" := csv_of rrp]>
          (<[csv_path env "reduced_load_profile.csv" := csv_of rlp]>
            (match t with
             | Some t => <[csv_path env "transmission.csv" := csv_of t]> (files k)
             | None => files k
             end)))))
    (log k ++ repeat (Call CreateNewGenerators) n ++
     [Call MakeFinalLoadCurves; Call CreateAllGenerators; Call AddMiscGenValues;
      Call AddMiscGenValues; Call MakeGeneratorVariability; Call ReduceTimeDomain] ++
     match t with
     | Some _ => transmission_events (csv_path env "transmission.csv")
     | None => []
     end ++
     [ToCsv (csv_path env "reduced_load_profile.csv");
      ToCsv (csv_path env "reduced_resource_profile.csv");
      ToCsv (csv_path env "all_gens.csv");
      ToCsv (csv_path env "new_gen.csv")])
    (Some ng) (Some ag) (Some rrp) (Some rlp)
    (match t with Some t => Some t | None => transmission k end)
    (all_gens_multi_year k).

(** The path of an output file from the inputs of the run. *)
Definition output_path (inp : Inputs) (name : string) : string :=
  str_replace ".yml" "_" (settings_path inp) +:+ name.

(** The paths a run has written to, in order. *)
Definition written (l : list event) : list string :=
  flat_map (fun e => match e with ToCsv path => [path] | _ => [] end) l.

(** No event of the transmission block (writing to [p]) among [l]. *)
Definition quiet (p : string) (l : list event) : Prop :=
  Forall (fun e => transmission_event p e = false) l.

(** A computation that leaves a log without transmission events that way,
    whether it completes or raises. *)
Definition keeps_quiet (p : string) {A} (m : M A) : Prop :=
  forall k, quiet p (log k) -> quiet p (log (fst (m k))).

(** The key of a row as cell 7 builds it from three strings. *)
Definition tech_key (resource region cluster : string) : string :=
  resource +:+ "-" +:+ region +:+ "-" +:+ cluster.

(** ** Notions used for the cells as a whole *)

(** A relation between the kernel before and after a computation that
    holds along any sequence of statements. *)
Class Frame (R : Kernel -> Kernel -> Prop) : Prop := {
  frame_refl : forall k, R k k;
  frame_trans : forall a b c, R a b -> R b c -> R a c
}.

(** A computation whose every run, completed or not, is within [R]. *)
Definition respects (R : Kernel -> Kernel -> Prop) {A} (m : M A) : Prop :=
  forall k, R k (fst (m k)).

(** The files are as they were. *)
Definition same_files (k k' : Kernel) : Prop := files k' = files k.

(** The files are as they were and the log has only gained file reads. *)
Definition reads_only (k k' : Kernel) : Prop :=
  files k' = files k /\
  exists l, log k' = log k ++ l /\ Forall (fun e => exists path, e = ReadCsv path) l.

(** Everything but [all_gens] and [all_gens_multi_year] is as it was. *)
Definition keeps_rest (k k' : Kernel) : Prop :=
  files k' = files k /\ log k' = log k /\ new_gen k' = new_gen k /\
  reduced_resource_profile k' = reduced_resource_profile k /\
  reduced_load_profile k' = reduced_load_profile k /\
  transmission k' = transmission k.

(** The file at [p] is as it was. *)
Definition keeps_file (p : string) (k k' : Kernel) : Prop :=
  files k' !! p = files k !! p.

(** The files are as they were and no write has been attempted. *)
Definition unwritten (k k' : Kernel) : Prop :=
  files k' = files k /\ exists l, log k' = log k ++ l /\ written l = [].




(** What [pd.read_csv] returns on the file written from [df]. *)
Definition read_back (ext : External) (df : DataFrame) : DataFrame :=
  let values := snd (parse_text ext (csv_of df)) in
  mkDF (fst (parse_text ext (csv_of df))) (combine (seq 0 (length values)) values).

(** A table whose names and values are read from its text as they were
    written. *)
Definition survives (ext : External) (df : DataFrame) : Prop :=
  parse_text ext (csv_of df) = (columns df, map snd (rows df)).

(** The calls a completed cell 5 makes before the transmission block, for
    [n] later periods. *)
Definition generator_calls (n : nat) : list event :=
  repeat (Call CreateNewGenerators) n ++
  [Call MakeFinalLoadCurves; Call CreateAllGenerators; Call AddMiscGenValues;
   Call AddMiscGenValues; Call MakeGeneratorVariability; Call ReduceTimeDomain].

(** * Properties *)

(** ** Results *)

Lemma rbind_ok {A B} (r : result A) (f : A -> result B) b :
  rbind r f = Ok b -> exists a, r = Ok a /\ f a = Ok b.
Proof. destruct r; simpl; intros H; [eauto | discriminate]. Qed.

Lemma rmap_length {A B} (f : A -> result B) l l' :
  rmap f l = Ok l' -> length l' = length l.
Proof.
  revert l'. induction l as [|x l IH]; simpl; intros l' H.
  - injection H as <-. reflexivity.
  - apply rbind_ok in H as (y & _ & H).
    apply rbind_ok in H as (ys & Hys & H).
    injection H as <-. simpl. f_equal. auto.
Qed.

Lemma rmap_nth {A B} (f : A -> result B) l l' i x :
  rmap f l = Ok l' -> l !! i = Some x ->
  exists y, l' !! i = Some y /\ f x = Ok y.
Proof.
  revert l' i. induction l as [|a l IH]; simpl; intros l' i H Hi; [discriminate|].
  apply rbind_ok in H as (y & Hy & H).
  apply rbind_ok in H as (ys & Hys & H).
  injection H as <-.
  destruct i as [|i]; simpl in *.
  - injection Hi as ->. eauto.
  - eauto.
Qed.

Lemma rmap_raise {A B} (f : A -> result B) l x :
  In x l -> is_ok (f x) = false -> is_ok (rmap f l) = false.
Proof.
  induction l as [|a l IH]; simpl; intros Hin Hx; [contradiction|].
  destruct (f a) as [y|e] eqn:Ha; simpl; [|reflexivity].
  destruct Hin as [->|Hin].
  - rewrite Ha in Hx. discriminate.
  - specialize (IH Hin Hx). destruct (rmap f l); simpl in *; [discriminate | reflexivity].
Qed.

Lemma rmap_total {A B} (f : A -> result B) l :
  Forall (fun x => is_ok (f x) = true) l -> exists l', rmap f l = Ok l'.
Proof.
  induction 1 as [|x l Hx _ [l' IH]]; simpl; [eauto|].
  destruct (f x); [|discriminate]. rewrite IH. simpl. eauto.
Qed.

(** ** Tables *)

Lemma has_column_In cols c : has_column cols c = true <-> In c cols.
Proof.
  unfold has_column. induction cols as [|c' cols IH]; simpl.
  - split; [discriminate | contradiction].
  - destruct (String.eqb_spec c c') as [->|Hne].
    + split; auto.
    + destruct (index_of c cols); simpl in *.
      * split; [intros _; right; apply IH; reflexivity | reflexivity].
      * split; [discriminate | intros [->|H]; [contradiction | apply IH, H]].
Qed.

Lemma has_column_false cols c : has_column cols c = false <-> ~ In c cols.
Proof.
  rewrite <- has_column_In. destruct (has_column cols c); split; congruence.
Qed.

Lemma row_get_absent cols r c : has_column cols c = false -> row_get cols r c = NaN.
Proof. unfold has_column, row_get. destruct (index_of c cols); [discriminate | reflexivity]. Qed.

(** Reading a row that was laid out under [cols] by [f]. *)
Lemma row_get_map cols (f : string -> cell) c :
  row_get cols (map f cols) c = if has_column cols c then f c else NaN.
Proof.
  unfold row_get, has_column. induction cols as [|c' cols IH]; simpl; [reflexivity|].
  destruct (String.eqb_spec c c') as [->|Hne]; [reflexivity|].
  destruct (index_of c cols); simpl in *; [exact IH | reflexivity].
Qed.

Lemma row_get_reindex cols cols' r c :
  row_get cols' (reindex_row cols cols' r) c =
  if has_column cols' c then row_get cols r c else NaN.
Proof. apply row_get_map. Qed.

Lemma has_with_column cols c : has_column (with_column cols c) c = true.
Proof.
  unfold with_column. destruct (has_column cols c) eqn:H; [exact H|].
  apply has_column_In, in_or_app. right. left. reflexivity.
Qed.

Lemma has_with_column_other cols c c' :
  c' <> c -> has_column (with_column cols c) c' = has_column cols c'.
Proof.
  intros Hne. unfold with_column. destruct (has_column cols c); [reflexivity|].
  destruct (has_column cols c') eqn:H.
  - apply has_column_In, in_or_app. left. apply has_column_In, H.
  - apply has_column_false. intros Hin. apply in_app_or in Hin as [Hin|[->|[]]].
    + apply has_column_false in H. contradiction.
    + contradiction.
Qed.

Lemma row_get_set_same cols r c v : row_get (with_column cols c) (row_set cols r c v) c = v.
Proof.
  unfold row_set. rewrite row_get_map, has_with_column, String.eqb_refl. reflexivity.
Qed.

Lemma row_get_set_other cols r c v c' :
  c' <> c -> row_get (with_column cols c) (row_set cols r c v) c' = row_get cols r c'.
Proof.
  intros Hne. unfold row_set. rewrite row_get_map, has_with_column_other by exact Hne.
  destruct (String.eqb_spec c' c); [contradiction|].
  destruct (has_column cols c') eqn:H; [reflexivity|].
  symmetry. apply row_get_absent, H.
Qed.

Lemma with_column_has cols c : has_column cols c = true -> with_column cols c = cols.
Proof. unfold with_column. intros ->. reflexivity. Qed.

Lemma combine_map_r {A B} (g : A -> B) (l : list A) :
  combine l (map g l) = map (fun x => (x, g x)) l.
Proof. induction l; simpl; congruence. Qed.

Lemma has_union_l ca cb c : has_column ca c = true -> has_column (union_columns ca cb) c = true.
Proof.
  intros H. apply has_column_In, in_or_app. left. apply has_column_In, H.
Qed.

Lemma has_union ca cb c :
  has_column (union_columns ca cb) c = has_column ca c || has_column cb c.
Proof.
  destruct (has_column ca c) eqn:Ha; simpl.
  - apply has_union_l, Ha.
  - destruct (has_column cb c) eqn:Hb.
    + apply has_column_In, in_or_app. right. apply filter_In. split.
      * apply has_column_In, Hb.
      * rewrite Ha. reflexivity.
    + apply has_column_false. intros Hin. apply in_app_or in Hin as [Hin|Hin].
      * apply has_column_false in Ha. contradiction.
      * apply filter_In in Hin as [Hin _]. apply has_column_false in Hb. contradiction.
Qed.

(** A column of a concatenation is the column of the first table followed by
    that of the second. *)
Lemma column_values_concat a b c :
  column_values (concat a b) c = column_values a c ++ column_values b c.
Proof.
  unfold column_values, concat. simpl. rewrite map_app, !map_map. simpl.
  f_equal; apply map_ext; intros r; rewrite row_get_reindex, has_union.
  - destruct (has_column (columns a) c) eqn:Ha; simpl; [reflexivity|].
    rewrite (row_get_absent _ _ _ Ha). destruct (has_column (columns b) c); reflexivity.
  - destruct (has_column (columns b) c) eqn:Hb; simpl.
    + rewrite orb_true_r. reflexivity.
    + rewrite (row_get_absent _ _ _ Hb). destruct (has_column (columns a) c); reflexivity.
Qed.

Lemma select_ok df cols' m :
  select df cols' = Ok m ->
  columns m = cols' /\
  map fst (rows m) = map fst (rows df) /\
  forall c, has_column cols' c = true -> column_values m c = column_values df c.
Proof.
  unfold select. destruct (forallb _ _); [|discriminate].
  intros H. injection H as <-. simpl. split; [reflexivity|]. split.
  - rewrite map_map. reflexivity.
  - intros c Hc. unfold column_values. simpl. rewrite map_map. apply map_ext.
    intros r. simpl. rewrite row_get_reindex, Hc. reflexivity.
Qed.

Lemma concat_restrict_total a b : exists m, concat_restrict a b = Ok m.
Proof.
  unfold concat_restrict, select.
  replace (forallb _ _) with true; [eauto|].
  symmetry. apply forallb_forall. intros c Hc. simpl.
  apply has_union_l, has_column_In, Hc.
Qed.

Lemma column_values_set_scalar df c v :
  column_values (set_scalar df c v) c = repeat v (length (rows df)).
Proof.
  unfold column_values, set_scalar. simpl. rewrite map_map. simpl.
  induction (rows df) as [|r l IH]; simpl; [reflexivity|].
  rewrite row_get_set_same. f_equal. exact IH.
Qed.

(** ** Kernel computations *)

Lemma bind_ok {A B} (m : M A) (f : A -> M B) k k' b :
  bind m f k = (k', Ok b) -> exists k1 a, m k = (k1, Ok a) /\ f a k1 = (k', Ok b).
Proof.
  unfold bind. destruct (m k) as [k1 [a|e]]; intros H; [eauto | discriminate].
Qed.

Lemma lift_ok {A} (r : result A) k k' a : lift r k = (k', Ok a) -> k' = k /\ r = Ok a.
Proof. unfold lift. intros H. injection H as <- ->. auto. Qed.

Lemma read_ok g k k' df : read g k = (k', Ok df) -> k' = k /\ g k = Some df.
Proof. unfold read. destruct (g k); intros H; [injection H as <- <-; auto | discriminate]. Qed.

Lemma read_csv_ok ext path k k' df :
  read_csv ext path k = (k', Ok df) ->
  k' = add_log (ReadCsv path) k /\
  exists f, files k !! path = Some f /\ frame_of ext f = Ok df.
Proof.
  unfold read_csv, bind, emit. simpl.
  destruct (files k !! path) as [f|]; intros H; injection H as <- H; [eauto | discriminate].
Qed.

(** A write that returns has stored the table. *)
Lemma to_csv_ok ext df path k k' u :
  to_csv ext df path k = (k', Ok u) ->
  k' = write_file path (csv_of df) (add_log (ToCsv path) k) /\
  write_text ext (files k) path (csv_of df) = Stored.
Proof.
  unfold to_csv, bind, emit. simpl.
  destruct (write_text ext (files k) path (csv_of df)) as [|e [f|]];
    intros H; [injection H as <-; auto | discriminate | discriminate].
Qed.




Ltac kernel_simpl :=
  unfold add_log, write_file in *;
  cbn [files log new_gen all_gens reduced_resource_profile reduced_load_profile
       transmission all_gens_multi_year] in *.

(** Invert a successful run of a sequence of statements, one at a time. *)
Ltac step H :=
  let k1 := fresh "k" in
  let a := fresh "a" in
  let H1 := fresh "H" in
  apply bind_ok in H as (k1 & a & H1 & H);
  first
    [ apply to_csv_ok in H1 as [-> H1]
    | apply lift_ok in H1 as [-> H1]
    | apply read_ok in H1 as [-> H1]
    | apply read_csv_ok in H1 as [-> H1]
    | idtac ];
  lazymatch type of a with
  | unit => destruct a
  | _ => idtac
  end;
  kernel_simpl.

Section Cell7.

Variable ext : External.
Variable env : Env.

(** A completed cell 7, statement by statement. *)
Lemma cell7_ok k k' :
  cell7 ext env k = (k', Ok tt) ->
  exists ag ng s m y,
    all_gens k = Some ag /\ new_gen k = Some ng /\
    tech_series ext ag = Ok s /\
    concat_restrict (set_series ag "tech" s) ng = Ok m /\
    first_period env = Ok y /\
    has_column (columns m) "operating_year" = true /\
    existsb is_str (operating_years m) = false /\
    k' = mkKernel (files k) (log k) (Some ng) (Some (set_series ag "tech" s))
                  (reduced_resource_profile k) (reduced_load_profile k)
                  (transmission k) (Some (fill_zero y (fill_nan y m))).
Proof.
  unfold cell7. intros H.
  do 17 step H. apply lift_ok in H as [-> _]. kernel_simpl. simplify_eq.
  match goal with H : select _ _ = Ok ?x |- _ => rename x into m end.
  match goal with H : attr_column m _ = _ |- _ => rename H into Hoy1 end.
  match goal with H : attr_column (set_where _ _ _ _) _ = _ |- _ => rename H into Hoy2 end.
  match goal with H : np_isnan _ = _ |- _ => rename H into Hnan end.
  unfold attr_column in Hoy1.
  destruct (has_column (columns m) "operating_year") eqn:Hcol; [|discriminate].
  injection Hoy1 as <-.
  unfold np_isnan in Hnan. fold (operating_years m) in Hnan.
  destruct (existsb is_str (operating_years m)) eqn:Hstr; [discriminate|].
  injection Hnan as <-.
  unfold attr_column in Hoy2. cbn in Hoy2. rewrite Hcol in Hoy2. injection Hoy2 as <-.
  match goal with
  | H1 : first_period env = Ok ?y, H2 : first_period env = Ok ?y' |- _ =>
      rewrite H1 in H2; injection H2 as <-
  end.
  match goal with H : new_gen k = Some _ |- _ => rewrite H end.
  eexists _, _, _, m, _. repeat split; eauto.
Qed.

End Cell7.

(** ** Writing a column where a mask holds *)

Section SetWhere.

Variables (m : DataFrame) (c : string) (v : cell) (g : cell -> bool).
Hypothesis Hc : has_column (columns m) c = true.

Let m' := set_where m (map g (column_values m c)) c v.

Lemma set_where_rows :
  rows m' =
  map (fun r => if g (row_get (columns m) (snd r) c)
                then (fst r, row_set (columns m) (snd r) c v) else r) (rows m).
Proof.
  unfold m', set_where, column_values. simpl.
  rewrite map_map, combine_map_r, map_map. reflexivity.
Qed.

Lemma set_where_columns : columns m' = columns m.
Proof. reflexivity. Qed.

Lemma set_where_labels : map fst (rows m') = map fst (rows m).
Proof.
  rewrite set_where_rows, map_map. apply map_ext. intros r.
  destruct (g _); reflexivity.
Qed.

Lemma set_where_same :
  column_values m' c = map (fun x => if g x then v else x) (column_values m c).
Proof.
  unfold column_values at 1. rewrite set_where_rows, set_where_columns.
  unfold column_values. rewrite !map_map. apply map_ext. intros r.
  destruct (g _); simpl; [|reflexivity].
  rewrite <- (with_column_has _ _ Hc) at 1. apply row_get_set_same.
Qed.

Lemma set_where_other c' : c' <> c -> column_values m' c' = column_values m c'.
Proof.
  intros Hne. unfold column_values at 1. rewrite set_where_rows, set_where_columns.
  unfold column_values. rewrite !map_map. apply map_ext. intros r.
  destruct (g _); simpl; [|reflexivity].
  rewrite <- (with_column_has _ _ Hc) at 1. apply row_get_set_other, Hne.
Qed.

End SetWhere.

Section Fill.

Variables (y : Z) (m : DataFrame).
Hypothesis Hcol : has_column (columns m) "operating_year" = true.

Lemma fill_columns : columns (fill_zero y (fill_nan y m)) = columns m.
Proof. reflexivity. Qed.

Lemma fill_labels : map fst (rows (fill_zero y (fill_nan y m))) = map fst (rows m).
Proof.
  unfold fill_zero, series_eq_zero, operating_years.
  rewrite set_where_labels. unfold fill_nan, operating_years. apply set_where_labels.
Qed.

Lemma fill_operating_years :
  operating_years (fill_zero y (fill_nan y m)) = map (fill y) (operating_years m).
Proof.
  unfold fill_zero, series_eq_zero, operating_years.
  rewrite set_where_same by exact Hcol.
  unfold fill_nan, operating_years. rewrite set_where_same by exact Hcol.
  rewrite map_map. apply map_ext. intros x. unfold fill.
  destruct x as [|q|s]; simpl; try reflexivity.
  - destruct (Qeq_bool (inject_Z y) 0); reflexivity.
Qed.

Lemma fill_other c :
  c <> "operating_year" ->
  column_values (fill_zero y (fill_nan y m)) c = column_values m c.
Proof.
  intros Hne. unfold fill_zero, series_eq_zero, operating_years.
  rewrite set_where_other by (exact Hcol || exact Hne).
  unfold fill_nan, operating_years. apply set_where_other; assumption.
Qed.

End Fill.

Lemma fill_populated y c : y <> 0 -> is_str c = false -> populated (fill y c).
Proof.
  intros Hy Hc. unfold fill, populated.
  assert (Hny : ~ (inject_Z y == 0)%Q).
  { unfold Qeq. simpl. lia. }
  destruct c as [|q|s]; simpl in *; try discriminate; eauto.
  destruct (Qeq_bool q 0) eqn:Hq; eauto.
  exists q. split; [reflexivity|]. intros H. apply Qeq_bool_iff in H. congruence.
Qed.

Lemma existsb_false_Forall {A} (p : A -> bool) l :
  existsb p l = false -> Forall (fun x => p x = false) l.
Proof.
  induction l as [|x l IH]; simpl; intros H; constructor.
  - destruct (p x); [discriminate | reflexivity].
  - apply IH. destruct (p x); [discriminate | exact H].
Qed.

Lemma column_values_absent df c :
  has_column (columns df) c = false ->
  column_values df c = repeat NaN (length (rows df)).
Proof.
  intros H. unfold column_values.
  induction (rows df) as [|r l IH]; simpl; [reflexivity|].
  rewrite (row_get_absent _ _ _ H). f_equal. exact IH.
Qed.

Lemma column_values_length df c : length (column_values df c) = length (rows df).
Proof. unfold column_values. apply length_map. Qed.

(** What [concat_restrict] returns, column by column. *)
Lemma concat_restrict_ok a b m :
  concat_restrict a b = Ok m ->
  columns m = columns a /\
  map fst (rows m) = map fst (rows a) ++ map fst (rows b) /\
  forall c, has_column (columns a) c = true ->
            column_values m c = column_values a c ++ column_values b c.
Proof.
  unfold concat_restrict. intros H. apply select_ok in H as (Hc & Hl & Hv).
  split; [exact Hc|]. split.
  - rewrite Hl. unfold concat. simpl. rewrite map_app, !map_map. reflexivity.
  - intros c Hin. rewrite Hv by exact Hin. apply column_values_concat.
Qed.

(** ** The key series of cell 7 *)

Lemma lookup_map {A B} (f : A -> B) (l : list A) i x :
  l !! i = Some x -> map f l !! i = Some (f x).
Proof.
  revert i. induction l as [|a l IH]; intros [|i] H; simpl in *; try discriminate.
  - injection H as ->. reflexivity.
  - apply IH, H.
Qed.

Lemma lookup_combine {A B} (l1 : list A) (l2 : list B) i x y :
  l1 !! i = Some x -> l2 !! i = Some y -> combine l1 l2 !! i = Some (x, y).
Proof.
  revert l2 i. induction l1 as [|a l1 IH]; intros [|b l2] [|i] H1 H2;
    simpl in *; try discriminate.
  - injection H1 as ->. injection H2 as ->. reflexivity.
  - apply IH; assumption.
Qed.

Lemma map_snd_combine {A B} (l1 : list A) (l2 : list B) :
  length l2 = length l1 -> map snd (combine l1 l2) = l2.
Proof.
  revert l2. induction l1 as [|a l1 IH]; intros [|b l2] H; simpl in *; try discriminate.
  - reflexivity.
  - f_equal. apply IH. lia.
Qed.

Lemma column_values_set_series df c s :
  length s = length (rows df) -> column_values (set_series df c s) c = s.
Proof.
  intros Hlen. unfold column_values, set_series. simpl. rewrite map_map. simpl.
  rewrite <- (map_snd_combine (rows df) s Hlen) at 2.
  apply map_ext. intros rv. apply row_get_set_same.
Qed.

Lemma string_app_assoc (a b c : string) : (a +:+ b) +:+ c = a +:+ (b +:+ c).
Proof.
  induction a as [|x a IH]; [reflexivity|].
  change (String x ((a +:+ b) +:+ c) = String x (a +:+ (b +:+ c))).
  rewrite IH. reflexivity.
Qed.

Section TechSeries.

Variable ext : External.

Lemma series_add_str_nth s t s' i a :
  series_add_str s t = Ok s' -> s !! i = Some (Str a) -> s' !! i = Some (Str (a +:+ t)).
Proof.
  unfold series_add_str, object_add_str. intros H Hi.
  destruct s as [|x s]; [discriminate|].
  destruct (existsb is_str (x :: s)); [|discriminate].
  destruct (rmap_nth _ _ _ _ _ H Hi) as (y & Hy & Hadd).
  simpl in Hadd. injection Hadd as <-. exact Hy.
Qed.

Lemma series_add_str_length s t s' : series_add_str s t = Ok s' -> length s' = length s.
Proof.
  unfold series_add_str, object_add_str. destruct s as [|x s].
  - intros H. injection H as <-. reflexivity.
  - destruct (existsb is_str (x :: s)); [|discriminate]. apply rmap_length.
Qed.

Lemma series_add_nth s1 s2 s' i a b :
  series_add s1 s2 = Ok s' -> s1 !! i = Some (Str a) -> s2 !! i = Some (Str b) ->
  s' !! i = Some (Str (a +:+ b)).
Proof.
  unfold series_add. intros H H1 H2.
  destruct (rmap_nth _ _ _ _ _ H (lookup_combine _ _ _ _ _ H1 H2)) as (y & Hy & Hadd).
  simpl in Hadd. injection Hadd as <-. exact Hy.
Qed.

Lemma series_add_length s1 s2 s' :
  series_add s1 s2 = Ok s' -> length s' = Nat.min (length s1) (length s2).
Proof.
  unfold series_add. intros H. apply rmap_length in H. rewrite H. apply length_combine.
Qed.

Lemma loc_column_ok df c s : loc_column df c = Ok s -> s = column_values df c.
Proof. unfold loc_column. destruct (has_column _ _); congruence. Qed.

(** The key series row by row, where it is defined. *)
Lemma tech_series_ok ag s :
  tech_series ext ag = Ok s ->
  length s = length (rows ag) /\
  forall i r a b z,
    rows ag !! i = Some r ->
    row_get (columns ag) (snd r) "Resource" = Str a ->
    row_get (columns ag) (snd r) "region" = Str b ->
    py_int ext (row_get (columns ag) (snd r) "cluster") = Ok z ->
    s !! i = Some (Str (tech_key a b (py_str z))).
Proof.
  unfold tech_series. intros H.
  apply rbind_ok in H as (resource & Hres & H). apply loc_column_ok in Hres.
  apply rbind_ok in H as (s1 & Hs1 & H).
  apply rbind_ok in H as (region & Hreg & H). apply loc_column_ok in Hreg.
  apply rbind_ok in H as (s2 & Hs2 & H).
  apply rbind_ok in H as (s3 & Hs3 & H).
  apply rbind_ok in H as (cluster & Hcl & H). apply loc_column_ok in Hcl.
  apply rbind_ok in H as (ints & Hints & H).
  split.
  - apply series_add_length in H. rewrite H, length_map.
    apply rmap_length in Hints. rewrite Hints.
    apply rmap_length in Hs3. rewrite Hs3.
    apply series_add_length in Hs2. rewrite Hs2.
    apply series_add_str_length in Hs1. rewrite Hs1.
    subst. rewrite !column_values_length. lia.
  - intros i r a b z Hr Ha Hb Hz.
    assert (H1 : resource !! i = Some (Str a)).
    { subst resource. rewrite <- Ha.
      exact (lookup_map (fun r => row_get (columns ag) (snd r) "Resource") _ _ _ Hr). }
    assert (H2 : region !! i = Some (Str b)).
    { subst region. rewrite <- Hb.
      exact (lookup_map (fun r => row_get (columns ag) (snd r) "region") _ _ _ Hr). }
    assert (H3 : cluster !! i = Some (row_get (columns ag) (snd r) "cluster")).
    { subst cluster.
      exact (lookup_map (fun r => row_get (columns ag) (snd r) "cluster") _ _ _ Hr). }
    pose proof (series_add_str_nth _ _ _ _ _ Hs1 H1) as E1.
    pose proof (series_add_nth _ _ _ _ _ _ Hs2 E1 H2) as E2.
    destruct (rmap_nth _ _ _ _ _ Hs3 E2) as (y3 & E3 & Hadd).
    simpl in Hadd. injection Hadd as <-.
    destruct (rmap_nth _ _ _ _ _ Hints H3) as (z' & E4 & Hz').
    rewrite Hz in Hz'. injection Hz' as <-.
    pose proof (lookup_map (fun z => Str (py_str z)) _ _ _ E4) as E5.
    rewrite (series_add_nth _ _ _ _ _ _ H E3 E5).
    unfold tech_key. rewrite !string_app_assoc. reflexivity.
Qed.

(** One cluster value that [int] refuses is enough for the key series to
    raise, whatever the other columns hold. *)
Lemma tech_series_raise ag v :
  In v (column_values ag "cluster") -> is_ok (py_int ext v) = false ->
  exists e, tech_series ext ag = Raise e.
Proof.
  intros Hin Hv. unfold tech_series.
  destruct (loc_column ag "Resource") as [resource|e]; simpl; [|eauto].
  destruct (series_add_str resource "-") as [s1|e]; simpl; [|eauto].
  destruct (loc_column ag "region") as [region|e]; simpl; [|eauto].
  destruct (series_add s1 region) as [s2|e]; simpl; [|eauto].
  destruct (object_add_str s2 "-") as [s3|e]; simpl; [|eauto].
  destruct (loc_column ag "cluster") as [cluster|e] eqn:Hcl; simpl; [|eauto].
  apply loc_column_ok in Hcl. subst cluster.
  pose proof (rmap_raise (py_int ext) _ _ Hin Hv) as Hr.
  destruct (rmap (py_int ext) (column_values ag "cluster")); simpl in *;
    [discriminate | eauto].
Qed.

End TechSeries.

(** ** Post-processing (cell 7) *)

(** C1. After post-processing every row of the multi-period table has an
    operating year: the rows of the concatenated table whose operating year
    was missing or zero hold the first planning period, the others keep
    theirs, and, the first planning period being a year (not zero), no
    operating year of the final table is missing or zero. *)
Theorem operating_year_populated ext env k k' y :
  cell7 ext env k = (k', Ok tt) ->
  first_period env = Ok y -> y <> 0 ->
  exists ag ng m0 m,
    all_gens k' = Some ag /\ new_gen k' = Some ng /\
    concat_restrict ag ng = Ok m0 /\
    all_gens_multi_year k' = Some m /\
    map fst (rows m) = map fst (rows m0) /\
    operating_years m = map (fill y) (operating_years m0) /\
    length (operating_years m) = length (rows m) /\
    Forall populated (operating_years m).
Proof.
  intros H Hy Hnz.
  apply cell7_ok in H as (ag & ng & s & m0 & y' & Hag & Hng & Hs & Hm0 & Hy' & Hcol & Hstr & ->).
  rewrite Hy in Hy'. injection Hy' as <-.
  exists (set_series ag "tech" s), ng, m0, (fill_zero y (fill_nan y m0)).
  kernel_simpl. repeat split; try reflexivity; try assumption.
  - apply fill_labels.
  - apply fill_operating_years, Hcol.
  - apply column_values_length.
  - rewrite (fill_operating_years _ _ Hcol).
    apply existsb_false_Forall in Hstr.
    induction Hstr as [|c l Hc _ IH]; simpl; constructor; auto.
    apply fill_populated; assumption.
Qed.

Lemma operating_year_populated_witness :
  exists m, all_gens_multi_year (Sample.finished Sample.two_periods) = Some m /\
            Forall populated (operating_years m).
Proof.
  destruct (operating_year_populated Sample.pg (Sample.env_of Sample.two_periods)
              (Sample.computed Sample.two_periods)
              (Sample.finished Sample.two_periods) 2025)
    as (ag & ng & m0 & m & _ & _ & _ & Hm & _ & _ & _ & Hall).
  - vm_compute. reflexivity.
  - reflexivity.
  - discriminate.
  - exists m. split; assumption.
Defined.

(** C4. Post-processing concatenates the start-year table (as it stands
    then, with its key column) and the new-generator table and keeps exactly
    the start-year table's columns: the rows are those of the first followed
    by those of the second, every column of the start-year table is a column
    of the combined table, and a column that only the new-generator table
    has is not. *)
Theorem combined_columns ext env k k' :
  cell7 ext env k = (k', Ok tt) ->
  exists ag ng m,
    all_gens k' = Some ag /\ new_gen k' = Some ng /\
    all_gens_multi_year k' = Some m /\
    columns m = columns ag /\
    map fst (rows m) = map fst (rows ag) ++ map fst (rows ng) /\
    (forall c, In c (columns ag) -> In c (columns m)) /\
    (forall c, In c (columns ng) -> ~ In c (columns ag) -> ~ In c (columns m)).
Proof.
  intros H.
  apply cell7_ok in H as (ag & ng & s & m0 & y & Hag & Hng & Hs & Hm0 & Hy & Hcol & Hstr & ->).
  apply concat_restrict_ok in Hm0 as (Hc & Hl & _).
  exists (set_series ag "tech" s), ng, (fill_zero y (fill_nan y m0)).
  kernel_simpl. rewrite fill_labels, fill_columns, Hc, Hl.
  repeat split; auto.
Qed.

Lemma combined_columns_witness :
  exists m, all_gens_multi_year (Sample.finished Sample.two_periods) = Some m /\
            columns m = ["Resource"; "region"; "cluster"; "operating_year"; "tech"] /\
            ~ In "Inv_cost_per_MWyr" (columns m).
Proof.
  destruct (combined_columns Sample.pg (Sample.env_of Sample.two_periods)
              (Sample.computed Sample.two_periods)
              (Sample.finished Sample.two_periods))
    as (ag & ng & m & Hag & Hng & Hm & Hc & _ & _ & Hout).
  - vm_compute. reflexivity.
  - exists m. split; [exact Hm|].
    vm_compute in Hag. injection Hag as <-.
    vm_compute in Hng. injection Hng as <-.
    split; [exact Hc|].
    apply Hout.
    + simpl. tauto.
    + simpl. intros [H|[H|[H|[H|[H|[]]]]]]; discriminate H.
Defined.

(** C9. The key column is written on the start-year table only, so, the
    new-generator table having no such column, the rows of the combined
    table that come from it (the last ones) have no key. *)
Theorem new_rows_have_no_key ext env k k' ng :
  cell7 ext env k = (k', Ok tt) ->
  new_gen k = Some ng -> ~ In "tech" (columns ng) ->
  exists ag m,
    all_gens k' = Some ag /\ new_gen k' = Some ng /\
    all_gens_multi_year k' = Some m /\
    length (rows m) = (length (rows ag) + length (rows ng))%nat /\
    column_values m "tech" =
      column_values ag "tech" ++ repeat NaN (length (rows ng)).
Proof.
  intros H Hng' Hno.
  apply cell7_ok in H as (ag & ng0 & s & m0 & y & Hag & Hng & Hs & Hm0 & Hy & Hcol & Hstr & ->).
  rewrite Hng' in Hng. injection Hng as <-.
  apply concat_restrict_ok in Hm0 as (Hc & Hl & Hv).
  exists (set_series ag "tech" s), (fill_zero y (fill_nan y m0)).
  kernel_simpl. repeat split; try reflexivity.
  - rewrite <- (length_map fst), fill_labels, Hl, length_app, !length_map. reflexivity.
  - rewrite fill_other by (exact Hcol || discriminate).
    rewrite Hv by apply has_with_column.
    f_equal. apply column_values_absent, has_column_false, Hno.
Qed.

Lemma new_rows_have_no_key_witness :
  exists m, all_gens_multi_year (Sample.finished Sample.two_periods) = Some m /\
            column_values m "tech" =
              [Str "coal-CA-1"; Str "gas-TX-2"; Str "wind-TX-3"; NaN].
Proof.
  destruct (new_rows_have_no_key Sample.pg (Sample.env_of Sample.two_periods)
              (Sample.computed Sample.two_periods)
              (Sample.finished Sample.two_periods)
              (mkDF ["Resource"; "region"; "cluster"; "Inv_cost_per_MWyr"; "operating_year"]
                    [(O, [Str "solar"; Str "CA"; Num 1; Num 90000; Num 2030])]))
    as (ag & m & Hag & _ & Hm & _ & Hkey).
  - vm_compute. reflexivity.
  - vm_compute. reflexivity.
  - simpl. intros [H|[H|[H|[H|[H|[]]]]]]; discriminate H.
  - exists m. split; [exact Hm|].
    rewrite Hkey. vm_compute in Hag. injection Hag as <-. vm_compute. reflexivity.
Defined.

(** C10. The key can only be built when [int] accepts every value of the
    cluster column: when one value is missing or otherwise refused, cell 7
    raises instead of producing keys and leaves the kernel as it was, the
    start-year table without the key column it did not have. *)
Theorem key_needs_integer_clusters ext env k ag v :
  all_gens k = Some ag ->
  In v (column_values ag "cluster") ->
  is_ok (py_int ext v) = false ->
  is_ok (py_int ext NaN) = false /\
  exists e, cell7 ext env k = (k, Raise e) /\
            all_gens (fst (cell7 ext env k)) = Some ag.
Proof.
  intros Hag Hin Hv. split; [reflexivity|].
  destruct (tech_series_raise ext ag v Hin Hv) as [e He].
  exists e. unfold cell7, bind, read, lift. rewrite Hag, He. simpl. auto.
Qed.

Lemma key_needs_integer_clusters_witness :
  exists e, cell7 Sample.pg (Sample.env_of Sample.two_periods)
                  (Sample.loaded Sample.null_cluster_gens Sample.new_builds) =
            (Sample.loaded Sample.null_cluster_gens Sample.new_builds, Raise e) /\
            ~ In "tech" (columns Sample.null_cluster_gens).
Proof.
  destruct (key_needs_integer_clusters Sample.pg (Sample.env_of Sample.two_periods)
              (Sample.loaded Sample.null_cluster_gens Sample.new_builds)
              Sample.null_cluster_gens NaN)
    as [_ (e & He & _)].
  - reflexivity.
  - vm_compute. tauto.
  - reflexivity.
  - exists e. split; [exact He|].
    simpl. intros [H|[H|[H|[H|[]]]]]; discriminate H.
Defined.

(** C7, as stated: the key is the resource name, the region and the cluster
    index concatenated.  It is not: for the first start-year generator of
    the sample ([coal], [CA], cluster 1) cell 7 writes [coal-CA-1], which is
    not [coal] followed by [CA] followed by [1]. *)
Lemma tech_key_is_not_plain_concatenation :
  rows Sample.start_year_gens !! O = Some (O, [Str "coal"; Str "CA"; Num 1; Num 1990]) /\
  py_int Sample.pg (Num 1) = Ok 1 /\
  exists ag',
    all_gens (Sample.finished Sample.two_periods) = Some ag' /\
    column_values ag' "tech" !! O = Some (Str "coal-CA-1") /\
    Str "coal-CA-1" <> Str ("coal" +:+ "CA" +:+ py_str 1).
Proof.
  split; [reflexivity|]. split; [reflexivity|].
  eexists. split; [vm_compute; reflexivity|].
  split; [vm_compute; reflexivity|].
  vm_compute. discriminate.
Qed.

(** C7, amended.  Cell 7 writes a key column on the start-year table where,
    for every row with a resource name and a region and a cluster that
    [int] accepts, the key is the resource name, the region and the cluster
    index (as [str(int(cluster))]) joined by ["-"]. *)
Theorem tech_key_joined ext env k k' ag :
  cell7 ext env k = (k', Ok tt) ->
  all_gens k = Some ag ->
  exists ag',
    all_gens k' = Some ag' /\
    columns ag' = with_column (columns ag) "tech" /\
    In "tech" (columns ag') /\
    length (rows ag') = length (rows ag) /\
    forall i r a b z,
      rows ag !! i = Some r ->
      row_get (columns ag) (snd r) "Resource" = Str a ->
      row_get (columns ag) (snd r) "region" = Str b ->
      py_int ext (row_get (columns ag) (snd r) "cluster") = Ok z ->
      column_values ag' "tech" !! i = Some (Str (a +:+ "-" +:+ b +:+ "-" +:+ py_str z)).
Proof.
  intros H Hag'.
  apply cell7_ok in H as (ag0 & ng & s & m0 & y & Hag & Hng & Hs & Hm0 & Hy & Hcol & Hstr & ->).
  rewrite Hag' in Hag. injection Hag as <-.
  apply tech_series_ok in Hs as [Hlen Hkey].
  exists (set_series ag "tech" s). kernel_simpl.
  split; [reflexivity|]. split; [reflexivity|].
  split; [apply has_column_In, has_with_column|].
  split.
  - rewrite <- (column_values_length _ "tech"), column_values_set_series; assumption.
  - intros i r a b z Hr Ha Hb Hz.
    rewrite column_values_set_series by exact Hlen.
    apply (Hkey i r a b z Hr Ha Hb Hz).
Qed.

Lemma tech_key_joined_witness :
  exists ag',
    all_gens (Sample.finished Sample.two_periods) = Some ag' /\
    column_values ag' "tech" !! 1%nat = Some (Str "gas-TX-2").
Proof.
  destruct (tech_key_joined Sample.pg (Sample.env_of Sample.two_periods)
              (Sample.computed Sample.two_periods)
              (Sample.finished Sample.two_periods) Sample.start_year_gens)
    as (ag' & Hag & _ & _ & _ & Hkey).
  - vm_compute. reflexivity.
  - vm_compute. reflexivity.
  - exists ag'. split; [exact Hag|].
    apply (Hkey 1%nat (1%nat, [Str "gas"; Str "TX"; Num (5 # 2); NaN]) "gas" "TX" 2);
      reflexivity.
Defined.

(** ** Output paths (cell 4) *)

Lemma app_String c s t : String c s +:+ t = String c (s +:+ t).
Proof. reflexivity. Qed.

Lemma prefix_String a s1 b s2 :
  String.prefix (String a s1) (String b s2) =
  if ascii_dec a b then String.prefix s1 s2 else false.
Proof. reflexivity. Qed.

(** A stem that does not start with [.yml] still does not once [.yml] is
    appended to it, unless it is empty. *)
Lemma prefix_yml_app c s :
  String.prefix ".yml" (String c s) = false ->
  String.prefix ".yml" (String c s +:+ ".yml") = false.
Proof.
  intros H. rewrite app_String, prefix_String in *.
  destruct (ascii_dec "." c) as [_|_]; [|reflexivity].
  destruct s as [|c2 s]; [reflexivity|].
  rewrite app_String, prefix_String in *.
  destruct (ascii_dec "y" c2) as [_|_]; [|reflexivity].
  destruct s as [|c3 s]; [reflexivity|].
  rewrite app_String, prefix_String in *.
  destruct (ascii_dec "m" c3) as [_|_]; [|reflexivity].
  destruct s as [|c4 s]; [reflexivity|].
  rewrite app_String, prefix_String in *.
  destruct (ascii_dec "l" c4) as [_|_]; [|reflexivity].
  destruct s; discriminate H.
Qed.

(** Replacing [.yml] in a path that ends in [.yml] and has no other one. *)
Lemma replace_yml stem :
  occurs ".yml" stem = false ->
  str_replace ".yml" "_" (stem +:+ ".yml") = stem +:+ "_".
Proof.
  unfold str_replace. induction stem as [|c stem IH]; intros Hocc.
  - reflexivity.
  - change (occurs ".yml" (String c stem))
      with (String.prefix ".yml" (String c stem) || occurs ".yml" stem) in Hocc.
    apply orb_false_iff in Hocc as [Hp Hocc].
    pose proof (prefix_yml_app c stem Hp) as Hp'.
    rewrite !app_String in *.
    change (replace_from ".yml" "_" 0 (String c (stem +:+ ".yml")))
      with (if String.prefix ".yml" (String c (stem +:+ ".yml"))
            then "_" +:+ replace_from ".yml" "_" (String.length ".yml" - 1) (stem +:+ ".yml")
            else String c (replace_from ".yml" "_" 0 (stem +:+ ".yml"))).
    rewrite Hp', (IH Hocc). reflexivity.
Qed.

(** ** The fresh computation (cell 5) *)

Section Cell5.

Variable ext : External.
Variable env : Env.

Lemma kernel_eq fs fs' l l' a a' b b' c c' d d' e e' f f' :
  fs = fs' -> l = l' -> a = a' -> b = b' -> c = c' -> d = d' -> e = e' -> f = f' ->
  mkKernel fs l a b c d e f = mkKernel fs' l' a' b' c' d' e' f'.
Proof. intros; subst; reflexivity. Qed.

(** The loop: one call per later period, the outputs tagged and
    accumulated in order. *)
Lemma new_gen_loop_ok later k k' acc :
  for_each later (new_gen_body ext env) k = (k', Ok tt) ->
  new_gen k = Some acc ->
  exists outs,
    new_builds_of ext env later outs /\
    k' = mkKernel (files k) (log k ++ repeat (Call CreateNewGenerators) (length later))
                  (Some (accumulate acc later outs)) (all_gens k)
                  (reduced_resource_profile k) (reduced_load_profile k)
                  (transmission k) (all_gens_multi_year k).
Proof.
  revert k acc. induction later as [|y later IH]; intros k acc H Hacc.
  - simpl in H. injection H as <-. exists []. split; [constructor|].
    simpl. rewrite app_nil_r, <- Hacc. destruct k; reflexivity.
  - simpl in H. step H. unfold new_gen_body in H0.
    do 3 step H0. apply lift_ok in H0 as [-> _]. kernel_simpl.
    match goal with H : new_gen k = Some _ |- _ => rewrite Hacc in H; injection H as <- end.
    eapply IH in H as (outs & Houts & ->); [|reflexivity].
    match goal with
    | Hc : create_new_generators ext _ = Ok ?out |- _ => exists (out :: outs)
    end.
    split.
    + constructor; [eauto | exact Houts].
    + kernel_simpl. apply kernel_eq; try reflexivity.
      rewrite <- app_assoc. reflexivity.
Qed.

Lemma operating_years_accumulate acc later outs :
  operating_years (accumulate acc later outs) =
  operating_years acc ++ period_tags later outs.
Proof.
  revert acc outs. induction later as [|y later IH]; intros acc [|out outs]; simpl;
    try (rewrite app_nil_r; reflexivity).
  rewrite IH. unfold operating_years at 1, tag_period.
  rewrite column_values_concat, column_values_set_scalar, <- app_assoc. reflexivity.
Qed.

(** The transmission block: skipped, or the pipeline and one write. *)
Lemma transmission_block_ok k k' :
  transmission_block ext env k = (k', Ok tt) ->
  exists n ot,
    len_region_aggregations (settings (inputs env)) = Ok n /\
    match ot with
    | Some t => (1 < n)%nat /\ transmission_pipeline ext (settings (inputs env)) = Ok t
    | None => (n <= 1)%nat
    end /\
    k' = mkKernel
           (match ot with
            | Some t => <[csv_path env "transmission.csv" := csv_of t]> (files k)
            | None => files k
            end)
           (log k ++ match ot with
                     | Some _ => transmission_events (csv_path env "transmission.csv")
                     | None => []
                     end)
           (new_gen k) (all_gens k)
           (reduced_resource_profile k) (reduced_load_profile k)
           (match ot with Some t => Some t | None => transmission k end)
           (all_gens_multi_year k).
Proof.
  unfold transmission_block. intros H. step H. rename a into n.
  exists n. destruct (Nat.ltb_spec 1 n) as [Hn|Hn].
  - do 11 step H. apply to_csv_ok in H as [-> _]. kernel_simpl.
    match goal with
    | Hm : network_max_reinforcement ext _ _ = Ok ?t |- _ => exists (Some t)
    end.
    split; [assumption|]. split.
    + split; [exact Hn|]. unfold transmission_pipeline.
      repeat match goal with
             | H : ?f = Ok _ |- context [?f] => rewrite H; simpl
             end.
      reflexivity.
    + apply kernel_eq; try reflexivity.
      rewrite <- !app_assoc. reflexivity.
  - injection H as <-. exists None. split; [assumption|]. split; [exact Hn|].
    rewrite app_nil_r. destruct k; reflexivity.
Qed.

(** A completed cell 5, statement by statement. *)
Lemma cell5_ok k k' :
  cell5 ext env k = (k', Ok tt) ->
  run_new env = 1 ->
  exists outs ag ng rrp rlp n ot,
    new_builds_of ext env (tail (all_periods env)) outs /\
    start_year_tables ext env
      (accumulate empty_frame (tail (all_periods env)) outs) ag ng rrp rlp /\
    len_region_aggregations (settings (inputs env)) = Ok n /\
    match ot with
    | Some t => (1 < n)%nat /\ transmission_pipeline ext (settings (inputs env)) = Ok t
    | None => (n <= 1)%nat
    end /\
    k' = computed_kernel env k (length (tail (all_periods env))) ag ng rrp rlp ot.
Proof.
  unfold cell5. intros H Hflag. rewrite Hflag in H. simpl in H.
  step H. step H.
  match goal with
  | Hl : new_gen_loop ext env _ = _ |- _ =>
      unfold new_gen_loop in Hl;
      eapply new_gen_loop_ok in Hl as (outs & Houts & Hk); [|reflexivity]
  end.
  subst. kernel_simpl.
  do 13 step H.
  match goal with
  | Hr : reduce_time_domain ext _ _ _ = Ok ?x |- _ => destruct x as [[rrp rlp] lds]
  end.
  do 3 step H.
  match goal with
  | Ht : transmission_block ext env _ = _ |- _ =>
      apply transmission_block_ok in Ht as (n & ot & Hn & Hot & ->)
  end.
  do 3 step H. apply to_csv_ok in H as [-> _]. kernel_simpl.
  match goal with
  | H1 : scenario_of env (start_year env) = Ok ?s1,
    H2 : scenario_of env (start_year env) = Ok ?s2,
    H3 : scenario_of env (start_year env) = Ok ?s3 |- _ =>
      rewrite H1 in H2, H3; injection H2 as <-; injection H3 as <-
  end.
  match goal with H : Ok (accumulate _ _ _) = Ok _ |- _ => injection H as <- end.
  match goal with
  | Hc : create_all_generators ext _ = Ok ?ag0,
    Ha : add_misc_gen_values ext ?ag0 _ = Ok ?ag,
    Hg : add_misc_gen_values ext (accumulate _ _ _) _ = Ok ?ng |- _ =>
      exists outs, ag, ng, rrp, rlp, n, ot
  end.
  split; [exact Houts|]. split.
  - unfold start_year_tables. eexists _, _, _, _, _. repeat split; eassumption.
  - split; [exact Hn|]. split; [exact Hot|].
    unfold computed_kernel. apply kernel_eq; try reflexivity.
    rewrite <- !app_assoc. reflexivity.
Qed.

End Cell5.

(** ** The run as a whole *)

Lemma cell4_ok inp env :
  cell4 inp = Ok env ->
  inputs env = inp /\
  all_periods env = map fst (scenario_settings inp) /\
  all_periods env = start_year env :: tail (all_periods env) /\
  first_period env = Ok (start_year env) /\
  run_new env = 1 /\
  file_prefix env = str_replace ".yml" "_" (settings_path inp).
Proof.
  unfold cell4, first_period.
  destruct (map fst (scenario_settings inp)) as [|y l] eqn:E; [discriminate|].
  intros H. injection H as <-. simpl. auto 10.
Qed.

Lemma cell6_skipped ext env k : run_new env = 1 -> cell6 ext env k = (k, Ok tt).
Proof. unfold cell6. intros ->. reflexivity. Qed.

Lemma run_cells_ok ext env k k' :
  run_cells ext env k = (k', Ok tt) -> run_new env = 1 ->
  exists k1, cell5 ext env k = (k1, Ok tt) /\ cell7 ext env k1 = (k', Ok tt).
Proof.
  unfold run_cells. intros H Hflag.
  apply bind_ok in H as (k1 & [] & H5 & H).
  apply bind_ok in H as (k2 & [] & H6 & H).
  rewrite (cell6_skipped ext env k1 Hflag) in H6. injection H6 as <-. eauto.
Qed.

Lemma notebook_ok ext inp fs k' :
  notebook ext inp fs = (k', Ok tt) ->
  exists env k1,
    cell4 inp = Ok env /\
    cell5 ext env (fresh_kernel fs) = (k1, Ok tt) /\
    cell7 ext env k1 = (k', Ok tt).
Proof.
  unfold notebook. destruct (cell4 inp) as [env|e] eqn:E; [|discriminate].
  intros H. apply run_cells_ok in H as (k1 & H5 & H7).
  - eauto.
  - apply cell4_ok in E. tauto.
Qed.

(** Two output files of one run are different files. *)
Lemma csv_path_neq env a b : a <> b -> String.eqb (csv_path env a) (csv_path env b) = false.
Proof.
  intros Hne. apply String.eqb_neq. intros H. apply Hne.
  unfold csv_path in H. revert H. generalize (file_prefix env) as p.
  induction p as [|c p IH]; intros H; [exact H|].
  rewrite !app_String in H. injection H as H. auto.
Qed.

Lemma csv_path_ne env a b : a <> b -> csv_path env a <> csv_path env b.
Proof. intros H. apply String.eqb_neq, csv_path_neq, H. Qed.

(** *** What the cells leave alone *)

Section Respects.

Context (R : Kernel -> Kernel -> Prop) `{!Frame R}.

Lemma respects_bind {A B} (m : M A) (f : A -> M B) :
  respects R m -> (forall a, respects R (f a)) -> respects R (bind m f).
Proof.
  intros Hm Hf k. unfold bind. specialize (Hm k).
  destruct (m k) as [k1 [a|e]]; simpl in *; [|exact Hm].
  eapply frame_trans; [exact Hm | apply Hf].
Qed.

Lemma respects_lift {A} (r : result A) : respects R (lift r).
Proof. intros k. apply frame_refl. Qed.

Lemma respects_read g : respects R (read g).
Proof. intros k. unfold read. destruct (g k); apply frame_refl. Qed.

(** A statement that raises ends the sequence. *)
Lemma respects_bind_lift {A B} (r : result A) (f : A -> M B) :
  (forall a, r = Ok a -> respects R (f a)) -> respects R (bind (lift r) f).
Proof.
  intros Hf k. unfold bind, lift. destruct r as [a|e]; simpl; [|apply frame_refl].
  apply (Hf a eq_refl).
Qed.

Lemma respects_bind_stuck {A B} (m : M A) (f : A -> M B) :
  respects R m -> (forall k, is_ok (snd (m k)) = false) -> respects R (bind m f).
Proof.
  intros Hm Hs k. unfold bind. specialize (Hm k). specialize (Hs k).
  destruct (m k) as [k1 [a|e]]; simpl in *; [discriminate | exact Hm].
Qed.

Lemma respects_for_each {A} (l : list A) body :
  (forall x, respects R (body x)) -> respects R (for_each l body).
Proof.
  intros Hb. induction l as [|x l IH]; simpl.
  - intros k. apply frame_refl.
  - apply respects_bind; [apply Hb | intros _; exact IH].
Qed.

End Respects.

#[export] Instance same_files_frame : Frame same_files.
Proof. split; unfold same_files; congruence. Qed.

#[export] Instance reads_only_frame : Frame reads_only.
Proof.
  split; unfold reads_only.
  - intros k. split; [reflexivity|]. exists []. rewrite app_nil_r. auto.
  - intros a b c [F1 (l1 & L1 & P1)] [F2 (l2 & L2 & P2)]. split; [congruence|].
    exists (l1 ++ l2). split; [rewrite L2, L1, app_assoc; reflexivity|].
    apply Forall_app. auto.
Qed.

#[export] Instance keeps_rest_frame : Frame keeps_rest.
Proof.
  split; unfold keeps_rest.
  - intros k. auto 10.
  - intros a b c (?&?&?&?&?&?) (?&?&?&?&?&?). repeat split; congruence.
Qed.

#[export] Instance keeps_file_frame p : Frame (keeps_file p).
Proof. split; unfold keeps_file; congruence. Qed.

#[export] Instance unwritten_frame : Frame unwritten.
Proof.
  split; unfold unwritten.
  - intros k. split; [reflexivity|]. exists []. rewrite app_nil_r. auto.
  - intros a b c [F1 (l1 & L1 & P1)] [F2 (l2 & L2 & P2)]. split; [congruence|].
    exists (l1 ++ l2). split; [rewrite L2, L1, app_assoc; reflexivity|].
    unfold written in *. rewrite flat_map_app, P1, P2. reflexivity.
Qed.

Lemma unwritten_call {A} s (r : result A) : respects unwritten (call s r).
Proof.
  intros k. split; [reflexivity|]. exists [Call s]. split; reflexivity.
Qed.

Lemma keeps_file_call {A} p s (r : result A) : respects (keeps_file p) (call s r).
Proof. intros k. reflexivity. Qed.

Lemma keeps_file_read_csv p ext path : respects (keeps_file p) (read_csv ext path).
Proof.
  intros k. unfold read_csv, bind, emit, keeps_file. simpl.
  destruct (files k !! path); reflexivity.
Qed.

(** A write to another path leaves the file at [p] as it was, whether it
    goes through or not. *)
Lemma keeps_file_to_csv p ext df path :
  path <> p -> respects (keeps_file p) (to_csv ext df path).
Proof.
  intros Hne k. unfold to_csv, bind, emit, keeps_file. simpl.
  destruct (write_text ext (files k) path (csv_of df)) as [|e [f|]]; simpl;
    try reflexivity; apply lookup_insert_ne; exact Hne.
Qed.

Lemma same_files_emit e : respects same_files (emit e).
Proof. intros k. reflexivity. Qed.

Lemma same_files_call {A} s (r : result A) : respects same_files (call s r).
Proof. intros k. reflexivity. Qed.

Lemma same_files_read_csv ext path : respects same_files (read_csv ext path).
Proof. intros k. unfold read_csv, bind, emit. simpl. destruct (files k !! path); reflexivity. Qed.

Lemma reads_only_read_csv ext path : respects reads_only (read_csv ext path).
Proof.
  intros k. unfold read_csv, bind, emit. simpl.
  assert (H : reads_only k (add_log (ReadCsv path) k)).
  { split; [reflexivity|]. exists [ReadCsv path]. split; [reflexivity|].
    constructor; [eauto | constructor]. }
  destruct (files k !! path); exact H.
Qed.

(** A statement that only binds a global is within each of the relations. *)
Ltac frame_here :=
  first
    [ hnf; reflexivity
    | hnf; split; [reflexivity | exists []; rewrite app_nil_r; split; [reflexivity | constructor]]
    | hnf; repeat split; reflexivity ].

(** Discharge [respects] for straight-line statements. *)
Ltac respects_steps_with extra :=
  repeat first
    [ extra
    | match goal with
      | |- respects _ (bind _ _) => refine (respects_bind _ _ _ _ _); [|intros ?]
      | |- respects _ (read _) => refine (respects_read _ _)
      | |- respects _ (lift _) => refine (respects_lift _ _)
      | |- respects same_files (call _ _) => apply same_files_call
      | |- respects unwritten (call _ _) => apply unwritten_call
      | |- respects (keeps_file _) (call _ _) => apply keeps_file_call
      | |- respects same_files (read_csv _ _) => apply same_files_read_csv
      | |- respects reads_only (read_csv _ _) => apply reads_only_read_csv
      | |- respects (keeps_file _) (read_csv _ _) => apply keeps_file_read_csv
      | |- respects (keeps_file _) (to_csv _ _ _) =>
          apply keeps_file_to_csv; apply csv_path_ne; discriminate
      | |- respects _ (match ?x with _ => _ end) => destruct x
      | |- respects _ (if ?b then _ else _) => destruct b
      | |- respects _ _ => intros ?; frame_here
      end ].

Ltac respects_steps := respects_steps_with fail.

(** *** Runs that stay clear of the transmission block *)

Section Quiet.

Variable p : string.

Lemma quiet_same_log {A} (m : M A) :
  (forall k, log (fst (m k)) = log k) -> keeps_quiet p m.
Proof. intros H k Hq. rewrite H. exact Hq. Qed.

Lemma quiet_bind {A B} (m : M A) (f : A -> M B) :
  keeps_quiet p m -> (forall a, keeps_quiet p (f a)) -> keeps_quiet p (bind m f).
Proof.
  intros Hm Hf k Hq. unfold bind. specialize (Hm k Hq).
  destruct (m k) as [k1 [a|e]]; simpl in *; [apply Hf, Hm | exact Hm].
Qed.

Lemma quiet_bind_lift {A B} (r : result A) (f : A -> M B) :
  (forall a, r = Ok a -> keeps_quiet p (f a)) -> keeps_quiet p (bind (lift r) f).
Proof.
  intros Hf k Hq. unfold bind, lift. destruct r as [a|e]; simpl; [|exact Hq].
  apply (Hf a eq_refl), Hq.
Qed.

Lemma quiet_emit e : transmission_event p e = false -> keeps_quiet p (emit e).
Proof.
  intros He k Hq. simpl. apply Forall_app. split; [exact Hq|]. constructor; [exact He|constructor].
Qed.

Lemma quiet_call {A} s (r : result A) :
  transmission_service s = false -> keeps_quiet p (call s r).
Proof.
  intros Hs. unfold call. apply quiet_bind; [apply quiet_emit, Hs|].
  intros _. apply quiet_same_log. reflexivity.
Qed.

Lemma quiet_to_csv ext df path :
  String.eqb path p = false -> keeps_quiet p (to_csv ext df path).
Proof.
  intros Hp. unfold to_csv. apply quiet_bind; [apply quiet_emit, Hp|].
  intros _. apply quiet_same_log. intros k.
  destruct (write_text ext (files k) path (csv_of df)) as [|e [f|]]; reflexivity.
Qed.

Lemma quiet_read_csv ext path : keeps_quiet p (read_csv ext path).
Proof.
  unfold read_csv. apply quiet_bind; [apply quiet_emit; reflexivity|].
  intros _. apply quiet_same_log. intros k. destruct (files k !! path); reflexivity.
Qed.

Lemma quiet_read g : keeps_quiet p (read g).
Proof. apply quiet_same_log. intros k. unfold read. destruct (g k); reflexivity. Qed.

Lemma quiet_for_each {A} (l : list A) body :
  (forall x, keeps_quiet p (body x)) -> keeps_quiet p (for_each l body).
Proof.
  intros Hb. induction l as [|x l IH]; simpl.
  - apply quiet_same_log. reflexivity.
  - apply quiet_bind; [apply Hb | intros _; exact IH].
Qed.

End Quiet.

(** Discharge [keeps_quiet] for straight-line statements; [extra] closes
    the blocks that have a lemma of their own. *)
Ltac quiet_steps_with extra :=
  repeat first
    [ extra
    | apply quiet_bind_lift; intros ? ?
    | apply quiet_read
    | apply quiet_read_csv
    | apply quiet_call; reflexivity
    | apply quiet_to_csv; apply csv_path_neq; discriminate
    | apply quiet_same_log; intros ?; reflexivity
    | apply quiet_bind; [|intros ?]
    | match goal with
      | |- keeps_quiet _ (match ?x with _ => _ end) => destruct x
      end ].

Ltac quiet_steps := quiet_steps_with fail.

Section QuietCells.

Variable ext : External.
Variable env : Env.

Let p := csv_path env "transmission.csv".

Hypothesis Hone : ~ more_than_one_region (settings (inputs env)).

Lemma quiet_transmission_block : keeps_quiet p (transmission_block ext env).
Proof.
  unfold transmission_block. apply quiet_bind_lift. intros n Hn.
  destruct (Nat.ltb_spec 1 n) as [Hlt|_].
  - exfalso. apply Hone. exists n. auto.
  - apply quiet_same_log. reflexivity.
Qed.

Lemma quiet_new_gen_loop : keeps_quiet p (new_gen_loop ext env).
Proof.
  apply quiet_for_each. intros y. unfold new_gen_body. quiet_steps.
Qed.

Lemma quiet_cell5 : keeps_quiet p (cell5 ext env).
Proof.
  unfold cell5. destruct (Z.eqb (run_new env) 1); [|apply quiet_same_log; reflexivity].
  quiet_steps_with
    ltac:(first [ apply quiet_transmission_block | apply quiet_new_gen_loop ]).
Qed.

Lemma quiet_cell6 : keeps_quiet p (cell6 ext env).
Proof.
  unfold cell6. destruct (negb (Z.eqb (run_new env) 1)); [|apply quiet_same_log; reflexivity].
  quiet_steps_with
    ltac:(idtac;
          match goal with
          | Hn : len_region_aggregations _ = Ok ?n |- _ =>
              destruct (Nat.ltb_spec 1 n) as [Hlt|_];
              [exfalso; apply Hone; exists n; auto | clear Hn]
          end).
Qed.

Lemma quiet_cell7 : keeps_quiet p (cell7 ext env).
Proof. unfold cell7. quiet_steps. Qed.

Lemma quiet_run_cells : keeps_quiet p (run_cells ext env).
Proof.
  unfold run_cells.
  apply quiet_bind; [apply quiet_cell5 | intros _].
  apply quiet_bind; [apply quiet_cell6 | intros _].
  apply quiet_cell7.
Qed.

(** Such a run leaves the transmission file as it is, whatever becomes of
    the other writes. *)
Lemma keeps_file_transmission_block :
  respects (keeps_file p) (transmission_block ext env).
Proof.
  unfold transmission_block. refine (respects_bind_lift _ _ _ _). intros n Hn.
  destruct (Nat.ltb_spec 1 n) as [Hlt|_].
  - exfalso. apply Hone. exists n. auto.
  - intros k. reflexivity.
Qed.

Lemma keeps_file_new_gen_loop : respects (keeps_file p) (new_gen_loop ext env).
Proof.
  refine (respects_for_each _ _ _ _). intros y. unfold new_gen_body. respects_steps.
Qed.

Lemma keeps_file_run_cells : respects (keeps_file p) (run_cells ext env).
Proof.
  unfold run_cells, cell5, cell6, cell7.
  respects_steps_with
    ltac:(first [ apply keeps_file_transmission_block | apply keeps_file_new_gen_loop ]).
Qed.

End QuietCells.

Lemma csv_path_output inp env name :
  cell4 inp = Ok env -> csv_path env name = output_path inp name.
Proof.
  intros H. apply cell4_ok in H as (_ & _ & _ & _ & _ & Hp).
  unfold csv_path, output_path. rewrite Hp. reflexivity.
Qed.

Lemma quiet_repeat_call p s n :
  transmission_service s = false -> quiet p (repeat (Call s) n).
Proof. intros Hs. induction n; simpl; constructor; auto. Qed.

Lemma more_than_one_dec s : more_than_one_region s \/ ~ more_than_one_region s.
Proof.
  unfold more_than_one_region. destruct (len_region_aggregations s) as [n|e].
  - destruct (Nat.ltb_spec 1 n) as [H|H].
    + left. eauto.
    + right. intros (n' & Hn' & Hlt). injection Hn' as <-. lia.
  - right. intros (n' & Hn' & _). discriminate.
Qed.

(** The log of a completed run of the notebook as written. *)
Lemma notebook_log ext inp fs k' :
  notebook ext inp fs = (k', Ok tt) ->
  exists env ag ng rrp rlp n (ot : option DataFrame),
    cell4 inp = Ok env /\
    len_region_aggregations (settings inp) = Ok n /\
    match ot with
    | Some t => (1 < n)%nat /\ transmission_pipeline ext (settings inp) = Ok t
    | None => (n <= 1)%nat
    end /\
    files k' = files (computed_kernel env (fresh_kernel fs)
                        (length (tail (all_periods env))) ag ng rrp rlp ot) /\
    log k' = log (computed_kernel env (fresh_kernel fs)
                    (length (tail (all_periods env))) ag ng rrp rlp ot) /\
    transmission k' = ot.
Proof.
  intros H. apply notebook_ok in H as (env & k1 & H4 & H5 & H7).
  pose proof (cell4_ok _ _ H4) as (Hinp & _ & _ & _ & Hflag & _).
  apply cell5_ok in H5 as (outs & ag & ng & rrp & rlp & n & ot & _ & _ & Hn & Hot & ->);
    [|exact Hflag].
  apply cell7_ok in H7 as (? & ? & ? & ? & ? & _ & _ & _ & _ & _ & _ & _ & ->).
  rewrite Hinp in *.
  exists env, ag, ng, rrp, rlp, n, ot. kernel_simpl.
  repeat split; try assumption; try reflexivity.
  destruct ot; reflexivity.
Qed.

(** C2. The notebook writes the transmission table exactly when the
    settings configure more than one region aggregation.  In a completed
    run the transmission file is among the files written if and only if
    there is more than one region aggregation, and then the file holds the
    transmission table.  With at most one, whatever the run does (complete
    or raise, compute or, with the flag edited, reload), it neither calls a
    transmission service nor writes that file: the file, if there was one,
    is as it was. *)
Theorem transmission_written_iff ext inp fs :
  (snd (notebook ext inp fs) = Ok tt ->
   (In (ToCsv (output_path inp "transmission.csv")) (log (fst (notebook ext inp fs)))
    <-> more_than_one_region (settings inp)) /\
   (more_than_one_region (settings inp) ->
    exists t,
      transmission (fst (notebook ext inp fs)) = Some t /\
      files (fst (notebook ext inp fs)) !! output_path inp "transmission.csv"
        = Some (csv_of t))) /\
  (~ more_than_one_region (settings inp) ->
   quiet (output_path inp "transmission.csv") (log (fst (notebook ext inp fs))) /\
   files (fst (notebook ext inp fs)) !! output_path inp "transmission.csv"
     = fs !! output_path inp "transmission.csv" /\
   forall env flag, cell4 inp = Ok env ->
     quiet (output_path inp "transmission.csv")
           (log (fst (run_cells ext (with_run_new flag env) (fresh_kernel fs)))) /\
     files (fst (run_cells ext (with_run_new flag env) (fresh_kernel fs)))
       !! output_path inp "transmission.csv" = fs !! output_path inp "transmission.csv").
Proof.
  assert (Hq : ~ more_than_one_region (settings inp) ->
               forall env flag, cell4 inp = Ok env ->
                 quiet (output_path inp "transmission.csv")
                       (log (fst (run_cells ext (with_run_new flag env) (fresh_kernel fs)))) /\
                 files (fst (run_cells ext (with_run_new flag env) (fresh_kernel fs)))
                   !! output_path inp "transmission.csv"
                   = fs !! output_path inp "transmission.csv").
  { intros Hone env flag H4.
    rewrite <- (csv_path_output inp env _ H4).
    assert (Hone' : ~ more_than_one_region (settings (inputs (with_run_new flag env)))).
    { simpl. apply cell4_ok in H4 as (-> & _). exact Hone. }
    split.
    - apply (quiet_run_cells ext (with_run_new flag env) Hone'). constructor.
    - exact (keeps_file_run_cells ext (with_run_new flag env) Hone' (fresh_kernel fs)). }
  assert (Hq1 : ~ more_than_one_region (settings inp) ->
                quiet (output_path inp "transmission.csv") (log (fst (notebook ext inp fs))) /\
                files (fst (notebook ext inp fs)) !! output_path inp "transmission.csv"
                  = fs !! output_path inp "transmission.csv").
  { intros Hone. unfold notebook.
    destruct (cell4 inp) as [env|e] eqn:H4; [|split; [constructor | reflexivity]].
    specialize (Hq Hone env 1 eq_refl).
    replace (with_run_new 1 env) with env in Hq; [exact Hq|].
    apply cell4_ok in H4 as (_ & _ & _ & _ & Hflag & _).
    destruct env; simpl in *. subst. reflexivity. }
  split; [|intros Hone; destruct (Hq1 Hone); auto].
  intros Hok. destruct (notebook ext inp fs) as [k' r] eqn:Hrun. simpl in *. subst r.
  split; [split|].
  - intros Hin. destruct (more_than_one_dec (settings inp)) as [H|H]; [exact H|].
    exfalso. destruct (Hq1 H) as [Hq2 _]. simpl in Hq2.
    pose proof (proj1 (List.Forall_forall _ _) Hq2 _ Hin) as Hev.
    simpl in Hev. rewrite String.eqb_refl in Hev. discriminate.
  - intros (n & Hn & Hlt).
    apply notebook_log in Hrun
      as (env & ag & ng & rrp & rlp & n' & ot & H4 & Hn' & Hot & _ & Hlog & _).
    rewrite Hn in Hn'. injection Hn' as <-.
    destruct ot as [t|]; [|lia].
    rewrite Hlog. simpl. rewrite (csv_path_output inp env _ H4).
    apply in_or_app. right. repeat (first [left; reflexivity | right]).
  - intros (n & Hn & Hlt).
    apply notebook_log in Hrun
      as (env & ag & ng & rrp & rlp & n' & ot & H4 & Hn' & Hot & Hfiles & _ & Htr).
    rewrite Hn in Hn'. injection Hn' as <-.
    destruct ot as [t|]; [|lia].
    exists t. split; [exact Htr|].
    rewrite Hfiles, <- (csv_path_output inp env _ H4).
    unfold computed_kernel. cbn [files].
    rewrite !lookup_insert_ne by (apply csv_path_ne; discriminate).
    apply lookup_insert_eq.
Qed.

Lemma transmission_written_iff_witness :
  In (ToCsv (output_path Sample.two_periods "transmission.csv"))
     (log (fst (notebook Sample.pg Sample.two_periods ∅))) /\
  (exists t,
     transmission (fst (notebook Sample.pg Sample.two_periods ∅)) = Some t /\
     files (fst (notebook Sample.pg Sample.two_periods ∅))
       !! output_path Sample.two_periods "transmission.csv" = Some (csv_of t)) /\
  quiet (output_path Sample.one_region "transmission.csv")
        (log (fst (notebook Sample.pg Sample.one_region ∅))) /\
  files (fst (notebook Sample.pg Sample.one_region ∅))
    !! output_path Sample.one_region "transmission.csv" = None.
Proof.
  assert (Hmore : more_than_one_region (settings Sample.two_periods)).
  { exists 2%nat. split; [vm_compute; reflexivity | lia]. }
  assert (Hone : ~ more_than_one_region (settings Sample.one_region)).
  { intros (n & Hn & Hlt). vm_compute in Hn. injection Hn as <-. lia. }
  assert (Hok : snd (notebook Sample.pg Sample.two_periods ∅) = Ok tt).
  { vm_compute. reflexivity. }
  destruct (transmission_written_iff Sample.pg Sample.two_periods ∅) as [Htwo _].
  destruct (Htwo Hok) as [Hiff Hfile].
  destruct (transmission_written_iff Sample.pg Sample.one_region ∅) as [_ Hquiet].
  destruct (Hquiet Hone) as (Hq & Hf & _).
  split; [exact (proj2 Hiff Hmore)|]. split; [exact (Hfile Hmore)|].
  split; [exact Hq|]. rewrite Hf. apply lookup_empty.
Defined.

Lemma transmission_pipeline_ok ext st t :
  transmission_pipeline ext st = Ok t ->
  exists t0 gdf t1 t2 t3,
    agg_transmission_constraints ext st = Ok t0 /\
    load_ipm_shapefile ext st = Ok gdf /\
    transmission_line_distance ext t0 gdf st = Ok t1 /\
    network_line_loss ext t1 st = Ok t2 /\
    network_reinforcement_cost ext t2 st = Ok t3 /\
    network_max_reinforcement ext t3 st = Ok t.
Proof.
  unfold transmission_pipeline. intros H.
  apply rbind_ok in H as (t0 & H0 & H).
  apply rbind_ok in H as (gdf & Hg & H).
  apply rbind_ok in H as (t1 & H1 & H).
  apply rbind_ok in H as (t2 & H2 & H).
  apply rbind_ok in H as (t3 & H3 & H).
  exists t0, gdf, t1, t2, t3. auto 10.
Qed.

(** C6. With more than one region aggregation, the transmission table a
    completed run ends with is the output of the aggregation service passed
    through the distance, line-loss, reinforcement-cost and
    max-reinforcement services, each called once and in that order, and it
    is that table that the transmission file holds. *)
Theorem transmission_pipeline_written ext inp fs k' :
  notebook ext inp fs = (k', Ok tt) ->
  more_than_one_region (settings inp) ->
  exists t0 gdf t1 t2 t3 t4 before after,
    agg_transmission_constraints ext (settings inp) = Ok t0 /\
    load_ipm_shapefile ext (settings inp) = Ok gdf /\
    transmission_line_distance ext t0 gdf (settings inp) = Ok t1 /\
    network_line_loss ext t1 (settings inp) = Ok t2 /\
    network_reinforcement_cost ext t2 (settings inp) = Ok t3 /\
    network_max_reinforcement ext t3 (settings inp) = Ok t4 /\
    transmission k' = Some t4 /\
    files k' !! output_path inp "transmission.csv" = Some (csv_of t4) /\
    log k' = before ++ transmission_events (output_path inp "transmission.csv") ++ after /\
    quiet (output_path inp "transmission.csv") before /\
    quiet (output_path inp "transmission.csv") after.
Proof.
  intros Hrun (n & Hn & Hlt).
  apply notebook_log in Hrun
    as (env & ag & ng & rrp & rlp & n' & ot & H4 & Hn' & Hot & Hfiles & Hlog & Htr).
  rewrite Hn in Hn'. injection Hn' as <-.
  destruct ot as [t|]; [|lia]. destruct Hot as [_ Hpipe].
  apply transmission_pipeline_ok in Hpipe as (t0 & gdf & t1 & t2 & t3 & H0 & Hg & H1 & H2 & H3 & Ht).
  exists t0, gdf, t1, t2, t3, t,
    (repeat (Call CreateNewGenerators) (length (tail (all_periods env))) ++
     [Call MakeFinalLoadCurves; Call CreateAllGenerators; Call AddMiscGenValues;
      Call AddMiscGenValues; Call MakeGeneratorVariability; Call ReduceTimeDomain]),
    [ToCsv (csv_path env "reduced_load_profile.csv");
     ToCsv (csv_path env "reduced_resource_profile.csv");
     ToCsv (csv_path env "all_gens.csv");
     ToCsv (csv_path env "new_gen.csv")].
  rewrite <- (csv_path_output inp env _ H4).
  repeat split; try assumption.
  - rewrite Hfiles. unfold computed_kernel. cbn [files].
    rewrite !lookup_insert_ne by (apply csv_path_ne; discriminate).
    apply lookup_insert_eq.
  - rewrite Hlog. unfold computed_kernel. cbn [log fresh_kernel].
    rewrite <- !app_assoc. reflexivity.
  - apply Forall_app. split; [apply quiet_repeat_call; reflexivity|].
    repeat constructor.
  - repeat constructor; simpl; apply csv_path_neq; discriminate.
Qed.

Lemma transmission_pipeline_written_witness :
  exists t,
    transmission (fst (notebook Sample.pg Sample.two_periods ∅)) = Some t /\
    files (fst (notebook Sample.pg Sample.two_periods ∅))
      !! output_path Sample.two_periods "transmission.csv" = Some (csv_of t) /\
    columns t = ["Network_lines"; "distance_mile"; "Line_Loss_Percentage";
                 "Line_Reinforcement_Cost_per_MW_yr"; "Line_Max_Reinforcement_MW"].
Proof.
  destruct (transmission_pipeline_written Sample.pg Sample.two_periods ∅
              (fst (notebook Sample.pg Sample.two_periods ∅)))
    as (t0 & gdf & t1 & t2 & t3 & t4 & before & after &
        H0 & Hg & H1 & H2 & H3 & H4 & Ht & Hf & _).
  - vm_compute. reflexivity.
  - exists 2%nat. split; [vm_compute; reflexivity | lia].
  - exists t4. split; [exact Ht|]. split; [exact Hf|].
    vm_compute in Ht. injection Ht as <-. reflexivity.
Defined.

(** ** New generators of the later periods *)

Lemma period_tags_members later outs :
  Forall (fun c => exists y, c = Num (inject_Z y) /\ In y later) (period_tags later outs).
Proof.
  unfold period_tags. revert outs.
  induction later as [|y later IH]; intros [|out outs]; simpl; try constructor.
  apply Forall_app. split.
  - apply List.Forall_forall. intros c Hc. apply repeat_spec in Hc. eauto.
  - eapply List.Forall_impl; [|apply IH]. simpl. intros c (y' & -> & Hin). eauto.
Qed.

Lemma fill_tag y y' : y' <> 0 -> fill y (Num (inject_Z y')) = Num (inject_Z y').
Proof.
  intros Hy. unfold fill. simpl.
  destruct (Qeq_bool (inject_Z y') 0) eqn:E; [|reflexivity].
  apply Qeq_bool_iff in E. unfold Qeq in E. simpl in E. lia.
Qed.

Lemma map_fill_tags y later outs :
  Forall (fun y' => y' <> 0) later ->
  map (fill y) (period_tags later outs) = period_tags later outs.
Proof.
  intros Hnz. rewrite <- (map_id (period_tags later outs)) at 2.
  apply map_ext_in. intros c Hc.
  pose proof (proj1 (List.Forall_forall _ _) (period_tags_members later outs) c Hc)
    as (y' & -> & Hin).
  apply fill_tag. exact (proj1 (List.Forall_forall _ _) Hnz y' Hin).
Qed.

(** C5. In a run of the notebook, the table the loop accumulates has one
    block of rows per planning period after the first, in order, each row
    tagged with the period whose call produced it, and no other rows.  That
    table goes through the misc-values service; when the service leaves the
    tags as they are (and no later period is zero), the combined table holds
    the start-year rows, those without an operating year now tagged with the
    first period, followed by the new rows with their tags.  With the
    periods 2025 and 2030, every new row is tagged 2030. *)
Theorem new_generators_tagged ext inp fs k' :
  notebook ext inp fs = (k', Ok tt) ->
  exists env outs acc ng ag m,
    cell4 inp = Ok env /\
    new_builds_of ext env (tail (all_periods env)) outs /\
    acc = accumulate empty_frame (tail (all_periods env)) outs /\
    operating_years acc = period_tags (tail (all_periods env)) outs /\
    Forall (fun c => exists y, c = Num (inject_Z y) /\ In y (tail (all_periods env)))
           (operating_years acc) /\
    add_misc_gen_values ext acc (settings inp) = Ok ng /\
    new_gen k' = Some ng /\ all_gens k' = Some ag /\ all_gens_multi_year k' = Some m /\
    (operating_years ng = operating_years acc ->
     Forall (fun y => y <> 0) (tail (all_periods env)) ->
     operating_years m =
       map (fill (start_year env)) (operating_years ag) ++ operating_years acc) /\
    (all_periods env = [2025; 2030] ->
     Forall (fun c => c = Num 2030) (operating_years acc)).
Proof.
  intros Hrun. apply notebook_ok in Hrun as (env & k1 & H4 & H5 & H7).
  pose proof (cell4_ok _ _ H4) as (Hinp & _ & _ & Hfirst & Hflag & _).
  apply cell5_ok in H5
    as (outs & ag0 & ng & rrp & rlp & n & ot & Houts & Hstart & _ & _ & ->);
    [|exact Hflag].
  destruct Hstart as (s0 & lc & ag00 & gv & lds & _ & _ & _ & _ & Hmisc & _).
  apply cell7_ok in H7
    as (ag1 & ng1 & s & m0 & y & Hag & Hng & _ & Hm0 & Hy & Hcol & _ & ->).
  unfold computed_kernel in Hag, Hng. cbn [all_gens new_gen] in Hag, Hng.
  injection Hag as <-. injection Hng as <-.
  rewrite Hfirst in Hy. injection Hy as <-.
  rewrite Hinp in Hmisc.
  pose proof (operating_years_accumulate empty_frame (tail (all_periods env)) outs) as Htags.
  change (operating_years empty_frame) with (@nil cell) in Htags. simpl in Htags.
  exists env, outs, (accumulate empty_frame (tail (all_periods env)) outs), ng,
    (set_series ag0 "tech" s), (fill_zero (start_year env) (fill_nan (start_year env) m0)).
  kernel_simpl.
  split; [exact H4|]. split; [exact Houts|]. split; [reflexivity|].
  split; [exact Htags|].
  split; [rewrite Htags; apply period_tags_members|].
  split; [exact Hmisc|]. do 3 (split; [reflexivity|]).
  split.
  - intros Hkeep Hnz.
    apply concat_restrict_ok in Hm0 as (Hc & _ & Hv).
    rewrite (fill_operating_years _ _ Hcol).
    unfold operating_years at 1. rewrite Hv by (rewrite <- Hc; exact Hcol).
    fold (operating_years (set_series ag0 "tech" s)). fold (operating_years ng).
    rewrite map_app, Hkeep, Htags, map_fill_tags by exact Hnz. reflexivity.
  - intros Hp. rewrite Htags.
    eapply List.Forall_impl; [|apply period_tags_members].
    simpl. intros c (y' & -> & Hin). rewrite Hp in Hin. simpl in Hin.
    destruct Hin as [<-|[]]. reflexivity.
Qed.

Lemma new_generators_tagged_witness :
  exists ng m,
    new_gen (fst (notebook Sample.pg Sample.two_periods ∅)) = Some ng /\
    all_gens_multi_year (fst (notebook Sample.pg Sample.two_periods ∅)) = Some m /\
    operating_years ng = [Num 2030] /\
    operating_years m = [Num 1990; Num 2025; Num 2025; Num 2030].
Proof.
  destruct (new_generators_tagged Sample.pg Sample.two_periods ∅
              (fst (notebook Sample.pg Sample.two_periods ∅)))
    as (env & outs & acc & ng & ag & m & H4 & _ & Hacc & Htags & _ & Hmisc &
        Hng & Hag & Hm & Hcomb & _).
  - vm_compute. reflexivity.
  - exists ng, m. split; [exact Hng|]. split; [exact Hm|].
    vm_compute in Hng. injection Hng as <-.
    vm_compute in Hm. injection Hm as <-.
    split; reflexivity.
Defined.

(** ** Output files *)

Lemma written_app l1 l2 : written (l1 ++ l2) = written l1 ++ written l2.
Proof. unfold written. apply flat_map_app. Qed.

Lemma written_repeat_call s n : written (repeat (Call s) n) = [].
Proof. induction n; simpl; auto. Qed.

(** C8, as stated: for every settings path the outputs are named after
    the path without its extension.  They are not when the extension is not
    [.yml]: for [US_National/US_N_settings.yaml] the prefix is the whole
    path, and the run writes [US_National/US_N_settings.yamlall_gens.csv],
    not [US_National/US_N_settings_all_gens.csv]. *)
Lemma yaml_settings_path_keeps_extension :
  snd (notebook Sample.pg
         (Sample.inputs_with "US_National/US_N_settings.yaml" [2025; 2030] 2) ∅) = Ok tt /\
  written (log (fst (notebook Sample.pg
         (Sample.inputs_with "US_National/US_N_settings.yaml" [2025; 2030] 2) ∅))) =
    ["US_National/US_N_settings.yamltransmission.csv";
     "US_National/US_N_settings.yamlreduced_load_profile.csv";
     "US_National/US_N_settings.yamlreduced_resource_profile.csv";
     "US_National/US_N_settings.yamlall_gens.csv";
     "US_National/US_N_settings.yamlnew_gen.csv"] /\
  ~ In "US_National/US_N_settings_all_gens.csv"
       (written (log (fst (notebook Sample.pg
         (Sample.inputs_with "US_National/US_N_settings.yaml" [2025; 2030] 2) ∅)))).
Proof.
  split; [vm_compute; reflexivity|]. split; [vm_compute; reflexivity|].
  vm_compute. intros [H|[H|[H|[H|[H|[]]]]]]; discriminate H.
Qed.

(** C8, amended.  For a settings path that ends in [.yml] and has no other
    [.yml] in it, every output path is the path without [.yml] followed by
    [_] and the name of the table, and a completed run writes
    [<stem>_reduced_load_profile.csv], [<stem>_reduced_resource_profile.csv],
    [<stem>_all_gens.csv] and [<stem>_new_gen.csv], after
    [<stem>_transmission.csv] when there is more than one region
    aggregation, and no other file. *)
Theorem csv_paths_of_yml_settings ext inp fs k' stem :
  settings_path inp = stem +:+ ".yml" ->
  occurs ".yml" stem = false ->
  notebook ext inp fs = (k', Ok tt) ->
  (forall name, output_path inp name = stem +:+ "_" +:+ name) /\
  exists tr,
    written (log k') =
      tr ++ [stem +:+ "_reduced_load_profile.csv";
             stem +:+ "_reduced_resource_profile.csv";
             stem +:+ "_all_gens.csv";
             stem +:+ "_new_gen.csv"] /\
    (more_than_one_region (settings inp) -> tr = [stem +:+ "_transmission.csv"]) /\
    (~ more_than_one_region (settings inp) -> tr = []).
Proof.
  intros Hpath Hocc Hrun.
  assert (Hout : forall name, output_path inp name = stem +:+ "_" +:+ name).
  { intros name. unfold output_path.
    rewrite Hpath, (replace_yml stem Hocc). apply string_app_assoc. }
  split; [exact Hout|].
  apply notebook_log in Hrun
    as (env & ag & ng & rrp & rlp & n & ot & H4 & Hn & Hot & _ & Hlog & _).
  exists (match ot with Some _ => [stem +:+ "_transmission.csv"] | None => [] end).
  split; [|split].
  - rewrite Hlog. unfold computed_kernel. cbn [log fresh_kernel].
    rewrite app_nil_l, !written_app, written_repeat_call.
    rewrite !(csv_path_output inp env _ H4), !Hout.
    destruct ot; reflexivity.
  - intros (n' & Hn' & Hlt). rewrite Hn in Hn'. injection Hn' as <-.
    destruct ot; [reflexivity | lia].
  - intros Hone. destruct ot as [t|]; [|reflexivity].
    exfalso. apply Hone. exists n. tauto.
Qed.

Lemma csv_paths_of_yml_settings_witness :
  written (log (fst (notebook Sample.pg Sample.two_periods ∅))) =
    ["US_National/US_N_settings_transmission.csv";
     "US_National/US_N_settings_reduced_load_profile.csv";
     "US_National/US_N_settings_reduced_resource_profile.csv";
     "US_National/US_N_settings_all_gens.csv";
     "US_National/US_N_settings_new_gen.csv"].
Proof.
  destruct (csv_paths_of_yml_settings Sample.pg Sample.two_periods ∅
              (fst (notebook Sample.pg Sample.two_periods ∅))
              "US_National/US_N_settings")
    as (_ & tr & Hw & Hmore & _).
  - reflexivity.
  - vm_compute. reflexivity.
  - vm_compute. reflexivity.
  - rewrite Hw, Hmore; [reflexivity|].
    exists 2%nat. split; [vm_compute; reflexivity | lia].
Defined.

(** ** Reloading the files of a fresh computation (cell 6) *)

Lemma frame_of_csv_of ext df :
  columns df <> [] -> frame_of ext (csv_of df) = Ok (read_back ext df).
Proof.
  intros H. unfold frame_of, read_back.
  change (header (csv_of df)) with (columns df).
  destruct (columns df); [contradiction | reflexivity].
Qed.

(** Whatever the parser reads, the rows of a table read back are labelled
    0, 1, 2, ... *)
Lemma map_fst_combine {A B} (l1 : list A) (l2 : list B) :
  length l1 = length l2 -> map fst (combine l1 l2) = l1.
Proof.
  revert l2. induction l1 as [|a l1 IH]; intros [|b l2] H; simpl in *;
    try discriminate; try reflexivity.
  f_equal. apply IH. lia.
Qed.

Lemma read_back_labels ext df :
  map fst (rows (read_back ext df)) = seq 0 (length (rows (read_back ext df))).
Proof.
  unfold read_back. simpl.
  rewrite length_combine, length_seq, Nat.min_id.
  apply map_fst_combine, length_seq.
Qed.

(** A table that survives the text is read back with its rows labelled
    anew, and as it was when they were labelled 0, 1, 2, ... already. *)
Lemma read_back_survives ext df : survives ext df -> read_back ext df = reset_index df.
Proof.
  unfold survives, read_back, reset_index. intros ->. simpl.
  rewrite length_map. reflexivity.
Qed.

Lemma reset_index_range df :
  map fst (rows df) = seq 0 (length (rows df)) -> reset_index df = df.
Proof.
  unfold reset_index. intros H. destruct df as [cols rs]. simpl in *. f_equal.
  rewrite <- H. clear H. induction rs as [|[i r] rs IH]; simpl; [reflexivity|].
  f_equal. exact IH.
Qed.

(** C3, as stated: the reload gives back tables identical to those of the
    fresh computation.  It does not when a table's rows are not labelled
    0, 1, 2, ...: with three planning periods the loop concatenates two
    one-row tables, both rows labelled 0; the file does not keep the
    labels, and the reload labels the rows 0 and 1. *)
Lemma reload_relabels_rows :
  cell5 Sample.pg (Sample.env_of Sample.three_periods) (fresh_kernel ∅) =
    (Sample.computed Sample.three_periods, Ok tt) /\
  snd (cell6 Sample.pg (with_run_new 0 (Sample.env_of Sample.three_periods))
             (fresh_kernel (files (Sample.computed Sample.three_periods)))) = Ok tt /\
  option_map (fun df => map fst (rows df))
             (new_gen (Sample.computed Sample.three_periods)) = Some [O; O] /\
  option_map (fun df => map fst (rows df))
             (new_gen (fst (cell6 Sample.pg (with_run_new 0 (Sample.env_of Sample.three_periods))
                       (fresh_kernel (files (Sample.computed Sample.three_periods))))))
    = Some [O; 1%nat] /\
  new_gen (fst (cell6 Sample.pg (with_run_new 0 (Sample.env_of Sample.three_periods))
                      (fresh_kernel (files (Sample.computed Sample.three_periods)))))
    <> new_gen (Sample.computed Sample.three_periods).
Proof.
  split; [vm_compute; reflexivity|]. split; [vm_compute; reflexivity|].
  split; [vm_compute; reflexivity|]. split; [vm_compute; reflexivity|].
  vm_compute. discriminate.
Qed.

(** C3, amended.  Over the files a fresh computation has written, the
    reload completes, provided every table has a column, and binds
    [reduced_load_profile], [reduced_resource_profile], [all_gens],
    [new_gen], and [transmission] when there is more than one region
    aggregation, each to what [pd.read_csv] reads in the file written from
    the table of that name: rows labelled 0, 1, 2, ..., names and values as
    the parser infers them from the text.  A reloaded table is the table of
    the fresh computation only where that table survives the text and its
    rows were labelled 0, 1, 2, ... *)
Theorem reload_after_fresh ext env k0 k1 flag kr :
  run_new env = 1 ->
  cell5 ext env k0 = (k1, Ok tt) ->
  flag <> 1 ->
  files kr = files k1 ->
  (forall df, In (Some df) [reduced_load_profile k1; reduced_resource_profile k1;
                            all_gens k1; new_gen k1] -> columns df <> []) ->
  (more_than_one_region (settings (inputs env)) ->
   forall t, transmission k1 = Some t -> columns t <> []) ->
  exists kr' rlp rrp ag ng,
    cell6 ext (with_run_new flag env) kr = (kr', Ok tt) /\
    reduced_load_profile k1 = Some rlp /\
    reduced_load_profile kr' = Some (read_back ext rlp) /\
    reduced_resource_profile k1 = Some rrp /\
    reduced_resource_profile kr' = Some (read_back ext rrp) /\
    all_gens k1 = Some ag /\ all_gens kr' = Some (read_back ext ag) /\
    new_gen k1 = Some ng /\ new_gen kr' = Some (read_back ext ng) /\
    (more_than_one_region (settings (inputs env)) ->
     exists t, transmission k1 = Some t /\ transmission kr' = Some (read_back ext t)) /\
    (~ more_than_one_region (settings (inputs env)) -> transmission kr' = transmission kr) /\
    Forall (fun df =>
              map fst (rows (read_back ext df)) = seq 0 (length (rows (read_back ext df))) /\
              (survives ext df -> read_back ext df = reset_index df) /\
              (survives ext df -> map fst (rows df) = seq 0 (length (rows df)) ->
               read_back ext df = df))
           [rlp; rrp; ag; ng].
Proof.
  intros Hflag H5 Hne Hfiles Hcols Htcols.
  assert (Hback : forall l,
    Forall (fun df =>
              map fst (rows (read_back ext df)) = seq 0 (length (rows (read_back ext df))) /\
              (survives ext df -> read_back ext df = reset_index df) /\
              (survives ext df -> map fst (rows df) = seq 0 (length (rows df)) ->
               read_back ext df = df)) l).
  { intros l. apply List.Forall_forall. intros df _.
    split; [apply read_back_labels|]. split; [apply read_back_survives|].
    intros Hs Hl. rewrite (read_back_survives ext df Hs). apply reset_index_range, Hl. }
  apply cell5_ok in H5
    as (outs & ag & ng & rrp & rlp & n & ot & _ & _ & Hn & Hot & ->); [|exact Hflag].
  unfold computed_kernel in *. kernel_simpl.
  assert (Hrlp : columns rlp <> []) by (apply Hcols; simpl; auto).
  assert (Hrrp : columns rrp <> []) by (apply Hcols; simpl; auto).
  assert (Hag : columns ag <> []) by (apply Hcols; simpl; auto).
  assert (Hng : columns ng <> []) by (apply Hcols; simpl; auto 6).
  assert (F1 : files kr !! csv_path env "reduced_load_profile.csv" = Some (csv_of rlp)).
  { rewrite Hfiles, !lookup_insert_ne by (apply csv_path_ne; discriminate).
    apply lookup_insert_eq. }
  assert (F2 : files kr !! csv_path env "reduced_resource_profile.csv" = Some (csv_of rrp)).
  { rewrite Hfiles, !lookup_insert_ne by (apply csv_path_ne; discriminate).
    apply lookup_insert_eq. }
  assert (F3 : files kr !! csv_path env "all_gens.csv" = Some (csv_of ag)).
  { rewrite Hfiles, !lookup_insert_ne by (apply csv_path_ne; discriminate).
    apply lookup_insert_eq. }
  assert (F4 : files kr !! csv_path env "new_gen.csv" = Some (csv_of ng)).
  { rewrite Hfiles. apply lookup_insert_eq. }
  assert (Hz : Z.eqb flag 1 = false) by (apply Z.eqb_neq, Hne).
  unfold cell6. cbn [run_new with_run_new inputs]. rewrite Hz. cbn [negb].
  change (csv_path (with_run_new flag env)) with (csv_path env).
  pose (log' := log kr ++ [ReadCsv (csv_path env "reduced_load_profile.csv");
                           ReadCsv (csv_path env "reduced_resource_profile.csv");
                           ReadCsv (csv_path env "all_gens.csv");
                           ReadCsv (csv_path env "new_gen.csv")]).
  assert (Hloads :
    forall rest : M unit,
      (let* t := read_csv ext (csv_path env "reduced_load_profile.csv") in
       set_reduced_load_profile t ;;
       let* t := read_csv ext (csv_path env "reduced_resource_profile.csv") in
       set_reduced_resource_profile t ;;
       let* t := read_csv ext (csv_path env "all_gens.csv") in
       set_all_gens t ;;
       let* t := read_csv ext (csv_path env "new_gen.csv") in
       set_new_gen t ;; rest) kr =
      rest (mkKernel (files kr) log' (Some (read_back ext ng)) (Some (read_back ext ag))
                     (Some (read_back ext rrp)) (Some (read_back ext rlp))
                     (transmission kr) (all_gens_multi_year kr))).
  { intros rest.
    unfold read_csv, emit, add_log, set_reduced_load_profile,
      set_reduced_resource_profile, set_all_gens, set_new_gen, bind.
    cbn [files log new_gen all_gens reduced_resource_profile
         reduced_load_profile transmission all_gens_multi_year].
    rewrite F1, (frame_of_csv_of ext rlp Hrlp).
    cbn [files log new_gen all_gens reduced_resource_profile
         reduced_load_profile transmission all_gens_multi_year].
    rewrite F2, (frame_of_csv_of ext rrp Hrrp).
    cbn [files log new_gen all_gens reduced_resource_profile
         reduced_load_profile transmission all_gens_multi_year].
    rewrite F3, (frame_of_csv_of ext ag Hag).
    cbn [files log new_gen all_gens reduced_resource_profile
         reduced_load_profile transmission all_gens_multi_year].
    rewrite F4, (frame_of_csv_of ext ng Hng).
    cbn [files log new_gen all_gens reduced_resource_profile
         reduced_load_profile transmission all_gens_multi_year].
    subst log'. rewrite <- !app_assoc. reflexivity. }
  rewrite Hloads. clear Hloads.
  unfold bind at 1. unfold lift. rewrite Hn.
  destruct ot as [t|].
  - destruct Hot as [Hlt _].
    assert (Ht : columns t <> []).
    { apply (Htcols (ex_intro _ n (conj Hn Hlt)) t). reflexivity. }
    assert (F5 : files kr !! csv_path env "transmission.csv" = Some (csv_of t)).
    { rewrite Hfiles, !lookup_insert_ne by (apply csv_path_ne; discriminate).
      apply lookup_insert_eq. }
    destruct (Nat.ltb_spec 1 n) as [_|]; [|lia].
    unfold read_csv, emit, add_log, set_transmission, bind.
    cbn [files log new_gen all_gens reduced_resource_profile
         reduced_load_profile transmission all_gens_multi_year].
    rewrite F5, (frame_of_csv_of ext t Ht).
    eexists _, rlp, rrp, ag, ng. split; [reflexivity|].
    cbn [files log new_gen all_gens reduced_resource_profile
         reduced_load_profile transmission all_gens_multi_year].
    do 8 (split; [reflexivity|]). split; [|split; [|apply Hback]].
    + intros _. exists t. split; reflexivity.
    + intros Hone. exfalso. apply Hone. exists n. auto.
  - destruct (Nat.ltb_spec 1 n) as [|_]; [lia|].
    eexists _, rlp, rrp, ag, ng. split; [reflexivity|].
    cbn [ret files log new_gen all_gens reduced_resource_profile
         reduced_load_profile transmission all_gens_multi_year].
    do 8 (split; [reflexivity|]). split; [|split; [reflexivity | apply Hback]].
    intros (n' & Hn' & Hlt). rewrite Hn in Hn'. injection Hn' as <-. lia.
Qed.

(** In the sample the cluster of the third generator is the string [3];
    it is read back as the number 3. *)
Lemma reload_after_fresh_witness :
  exists kr' ag ag',
    cell6 Sample.pg (with_run_new 0 (Sample.env_of Sample.two_periods))
          (Sample.computed Sample.two_periods) = (kr', Ok tt) /\
    all_gens (Sample.computed Sample.two_periods) = Some ag /\
    all_gens kr' = Some ag' /\
    column_values ag "cluster" = [Num 1; Num (5 # 2); Str "3"] /\
    column_values ag' "cluster" = [Num 1; Num (5 # 2); Num 3].
Proof.
  destruct (reload_after_fresh Sample.pg (Sample.env_of Sample.two_periods)
              (fresh_kernel ∅) (Sample.computed Sample.two_periods) 0
              (Sample.computed Sample.two_periods))
    as (kr' & rlp & rrp & ag & ng & H6 & _ & _ & _ & _ & Hag & Hag' & _).
  - reflexivity.
  - vm_compute. reflexivity.
  - discriminate.
  - reflexivity.
  - intros df Hin. vm_compute in Hin.
    destruct Hin as [H|[H|[H|[H|[]]]]]; injection H as <-; discriminate.
  - intros _ t Ht. vm_compute in Ht. injection Ht as <-. discriminate.
  - exists kr', ag, (read_back Sample.pg ag).
    split; [exact H6|]. split; [exact Hag|]. split; [exact Hag'|].
    vm_compute in Hag. injection Hag as <-. split; vm_compute; reflexivity.
Defined.

(** ** When post-processing completes *)

Lemma object_add_str_total s t :
  Forall (fun c => is_str c = true) s ->
  exists s', object_add_str s t = Ok s' /\
             Forall (fun c => is_str c = true) s' /\ length s' = length s.
Proof.
  unfold object_add_str. induction 1 as [|c s Hc _ (s' & IH & Hs' & Hlen)]; simpl.
  - exists []. auto.
  - destruct c as [| |a]; try discriminate. simpl. rewrite IH. simpl.
    eexists. split; [reflexivity|]. split; [constructor; auto | simpl; congruence].
Qed.

Lemma series_add_total s1 s2 :
  Forall (fun c => is_str c = true) s1 ->
  Forall (fun c => is_str c = true) s2 ->
  exists s', series_add s1 s2 = Ok s' /\
             Forall (fun c => is_str c = true) s' /\
             length s' = Nat.min (length s1) (length s2).
Proof.
  unfold series_add. intros H1. revert s2.
  induction H1 as [|c s1 Hc _ IH]; intros s2 H2; simpl.
  - exists []. auto.
  - destruct H2 as [|d s2 Hd H2]; simpl; [exists []; auto|].
    destruct (IH s2 H2) as (s' & E & Hs' & Hlen).
    destruct c as [| |a]; try discriminate. destruct d as [| |b]; try discriminate.
    simpl. rewrite E. simpl.
    eexists. split; [reflexivity|]. split; [constructor; auto | simpl; congruence].
Qed.

Lemma series_add_str_total s t :
  Forall (fun c => is_str c = true) s ->
  exists s', series_add_str s t = Ok s' /\
             Forall (fun c => is_str c = true) s' /\ length s' = length s.
Proof.
  intros H. unfold series_add_str. destruct s as [|c s]; [exists []; auto|].
  replace (existsb is_str (c :: s)) with true.
  - apply object_add_str_total, H.
  - inversion H; subst. simpl. destruct (is_str c); [reflexivity | discriminate].
Qed.

Lemma Forall_column_values (P : cell -> Prop) df c :
  Forall (fun r => P (row_get (columns df) (snd r) c)) (rows df) ->
  Forall P (column_values df c).
Proof. unfold column_values. induction 1; simpl; constructor; auto. Qed.

(** The key series is defined when every row has a resource name, a region
    and a cluster that [int] accepts. *)
Lemma tech_series_total ext ag :
  has_column (columns ag) "Resource" = true ->
  has_column (columns ag) "region" = true ->
  has_column (columns ag) "cluster" = true ->
  Forall (fun r => is_str (row_get (columns ag) (snd r) "Resource") = true) (rows ag) ->
  Forall (fun r => is_str (row_get (columns ag) (snd r) "region") = true) (rows ag) ->
  Forall (fun r => is_ok (py_int ext (row_get (columns ag) (snd r) "cluster")) = true)
         (rows ag) ->
  exists s, tech_series ext ag = Ok s.
Proof.
  intros H1 H2 H3 Hres Hreg Hcl. unfold tech_series, loc_column.
  rewrite H1, H2, H3. simpl.
  destruct (series_add_str_total _ "-" (Forall_column_values _ _ _ Hres)) as (s1 & E1 & S1 & _).
  rewrite E1. simpl.
  destruct (series_add_total _ _ S1 (Forall_column_values _ _ _ Hreg)) as (s2 & E2 & S2 & _).
  rewrite E2. simpl.
  destruct (object_add_str_total _ "-" S2) as (s3 & E3 & S3 & _).
  rewrite E3. simpl.
  destruct (rmap_total (py_int ext) _
              (Forall_column_values (fun c => is_ok (py_int ext c) = true) _ _ Hcl))
    as (ints & E4).
  rewrite E4. simpl.
  assert (S4 : Forall (fun c => is_str c = true) (map (fun z => Str (py_str z)) ints)).
  { clear. induction ints; simpl; constructor; auto. }
  destruct (series_add_total _ _ S3 S4) as (s & E & _). eauto.
Qed.

Lemma column_values_set_series_other df c s c' :
  c' <> c -> length s = length (rows df) ->
  column_values (set_series df c s) c' = column_values df c'.
Proof.
  intros Hne Hlen. unfold column_values, set_series. simpl. rewrite map_map. simpl.
  revert s Hlen. induction (rows df) as [|r l IH]; intros [|v s] Hlen; simpl in *;
    try discriminate; [reflexivity|].
  rewrite row_get_set_other by exact Hne. f_equal. apply IH. lia.
Qed.

(** Cell 7 completes when the key series is defined, the start-year table
    has an operating-year column and no operating year is a string. *)
Lemma cell7_total ext env k ag ng s y :
  all_gens k = Some ag -> new_gen k = Some ng ->
  tech_series ext ag = Ok s ->
  first_period env = Ok y ->
  has_column (columns ag) "operating_year" = true ->
  existsb is_str (operating_years ag) = false ->
  existsb is_str (operating_years ng) = false ->
  exists k', cell7 ext env k = (k', Ok tt).
Proof.
  intros Hag Hng Hs Hy Hcol Hsa Hsn.
  destruct (concat_restrict_total (set_series ag "tech" s) ng) as [m Hm].
  pose proof (concat_restrict_ok _ _ _ Hm) as (Hc & _ & Hv).
  assert (Hcol' : has_column (columns m) "operating_year" = true).
  { rewrite Hc. simpl. rewrite has_with_column_other by discriminate. exact Hcol. }
  assert (Hstr : existsb is_str (operating_years m) = false).
  { unfold operating_years. rewrite Hv by (rewrite <- Hc; exact Hcol').
    rewrite existsb_app.
    rewrite column_values_set_series_other
      by (discriminate || apply (tech_series_ok ext ag s Hs)).
    fold (operating_years ag). fold (operating_years ng). rewrite Hsa, Hsn. reflexivity. }
  unfold concat_restrict in Hm.
  unfold cell7, bind, read, lift, set_all_gens, set_all_gens_multi_year.
  rewrite Hag, Hs. cbn [all_gens new_gen all_gens_multi_year]. rewrite Hng.
  cbn [all_gens new_gen all_gens_multi_year]. rewrite Hm, Hy.
  unfold attr_column. rewrite Hcol'. unfold np_isnan.
  fold (operating_years m). rewrite Hstr.
  cbn [all_gens new_gen all_gens_multi_year columns set_where]. rewrite Hcol'.
  eauto.
Qed.

(** * Further properties of the cells *)

(** ** The file prefix (cell 4) *)

Lemma occurs_String old c s :
  occurs old (String c s) = String.prefix old (String c s) || occurs old s.
Proof. reflexivity. Qed.

Lemma replace_from_String old new c s :
  replace_from old new O (String c s) =
  if String.prefix old (String c s)
  then new +:+ replace_from old new (String.length old - 1) s
  else String c (replace_from old new O s).
Proof. reflexivity. Qed.

Lemma replace_from_absent old new s :
  occurs old s = false -> replace_from old new O s = s.
Proof.
  induction s as [|c s IH]; intros H; [reflexivity|].
  rewrite occurs_String in H. apply orb_false_iff in H as [Hp Ho].
  rewrite replace_from_String, Hp, (IH Ho). reflexivity.
Qed.

(** X1. A settings path in which [.yml] does not occur is taken whole as
    the prefix: every output path is the settings path followed directly by
    the name of the table. *)
Theorem prefix_of_path_without_yml inp env name :
  cell4 inp = Ok env ->
  occurs ".yml" (settings_path inp) = false ->
  file_prefix env = settings_path inp /\
  csv_path env name = settings_path inp +:+ name.
Proof.
  intros H4 Hocc. apply cell4_ok in H4 as (_ & _ & _ & _ & _ & Hp).
  assert (E : file_prefix env = settings_path inp).
  { rewrite Hp. apply replace_from_absent, Hocc. }
  split; [exact E|]. unfold csv_path. rewrite E. reflexivity.
Qed.

Lemma prefix_of_path_without_yml_witness :
  csv_path (Sample.env_of (Sample.inputs_with "run/settings.yaml" [2025] 1)) "new_gen.csv"
  = "run/settings.yaml" +:+ "new_gen.csv".
Proof.
  refine (proj2 (prefix_of_path_without_yml
                   (Sample.inputs_with "run/settings.yaml" [2025] 1)
                   (Sample.env_of (Sample.inputs_with "run/settings.yaml" [2025] 1))
                   "new_gen.csv" _ _)).
  - reflexivity.
  - reflexivity.
Defined.

Lemma prefix_yml_app_rest c s rest :
  String.prefix ".yml" (String c s) = false ->
  String.prefix ".yml" (String c s +:+ ".yml" +:+ rest) = false.
Proof.
  intros H. rewrite app_String, prefix_String in *.
  destruct (ascii_dec "." c) as [_|_]; [|reflexivity].
  destruct s as [|c2 s]; [reflexivity|].
  rewrite app_String, prefix_String in *.
  destruct (ascii_dec "y" c2) as [_|_]; [|reflexivity].
  destruct s as [|c3 s]; [reflexivity|].
  rewrite app_String, prefix_String in *.
  destruct (ascii_dec "m" c3) as [_|_]; [|reflexivity].
  destruct s as [|c4 s]; [reflexivity|].
  rewrite app_String, prefix_String in *.
  destruct (ascii_dec "l" c4) as [_|_]; [|reflexivity].
  destruct s; discriminate H.
Qed.

(** X2. Every [.yml] of the settings path is replaced, not only the
    extension: up to and including its first [.yml] the path becomes the
    text before it followed by [_], and the replacement goes on in what
    follows. *)
Theorem prefix_replaces_every_yml stem rest :
  occurs ".yml" stem = false ->
  str_replace ".yml" "_" (stem +:+ ".yml" +:+ rest) =
  stem +:+ "_" +:+ str_replace ".yml" "_" rest.
Proof.
  unfold str_replace. induction stem as [|c stem IH]; intros Hocc.
  - destruct rest; reflexivity.
  - rewrite occurs_String in Hocc. apply orb_false_iff in Hocc as [Hp Hocc].
    pose proof (prefix_yml_app_rest c stem rest Hp) as Hp'.
    rewrite !app_String in *.
    rewrite replace_from_String, Hp', (IH Hocc). reflexivity.
Qed.

Lemma prefix_replaces_every_yml_witness :
  str_replace ".yml" "_" "conf.yml/US_N_settings.yml" = "conf_/US_N_settings_".
Proof.
  exact (prefix_replaces_every_yml "conf" "/US_N_settings.yml" eq_refl).
Defined.

(** ** Runs that only read *)

Lemma cell5_skipped ext env k : run_new env <> 1 -> cell5 ext env k = (k, Ok tt).
Proof.
  intros H. unfold cell5. apply Z.eqb_neq in H. rewrite H. reflexivity.
Qed.

Lemma cell6_reads_only ext env : respects reads_only (cell6 ext env).
Proof. unfold cell6. respects_steps. Qed.

Lemma cell7_reads_only ext env : respects reads_only (cell7 ext env).
Proof. unfold cell7. respects_steps. Qed.

(** X3. With the flag set to anything but 1 the cells only read: whether
    the run completes or raises, no file is written or changed, no service
    is called, and the log gains nothing but reads of CSV files. *)
Theorem reuse_run_reads_only ext env k :
  run_new env <> 1 ->
  files (fst (run_cells ext env k)) = files k /\
  exists l, log (fst (run_cells ext env k)) = log k ++ l /\
            Forall (fun e => exists path, e = ReadCsv path) l.
Proof.
  intros Hflag.
  assert (H : respects reads_only (run_cells ext env)).
  { unfold run_cells. refine (respects_bind _ _ _ _ _).
    - intros k0. rewrite (cell5_skipped ext env k0 Hflag). apply frame_refl.
    - intros _. refine (respects_bind _ _ _ _ _); [apply cell6_reads_only|].
      intros _. apply cell7_reads_only. }
  exact (H k).
Qed.

Lemma reuse_run_reads_only_witness :
  files (fst (run_cells Sample.pg (with_run_new 0 (Sample.env_of Sample.two_periods))
                        (Sample.computed Sample.two_periods)))
  = files (Sample.computed Sample.two_periods).
Proof.
  refine (proj1 (reuse_run_reads_only Sample.pg
                   (with_run_new 0 (Sample.env_of Sample.two_periods))
                   (Sample.computed Sample.two_periods) _)).
  discriminate.
Defined.

(** ** A fresh computation that raises *)








Section Cell5Raises.

Variable ext : External.
Variable env : Env.

Lemma new_gen_loop_same_files : respects same_files (new_gen_loop ext env).
Proof.
  refine (respects_for_each _ _ _ _). intros y. unfold new_gen_body. respects_steps.
Qed.




(** When the region aggregations cannot be measured, cell 5 stops at the
    transmission block at the latest. *)
Lemma cell5_same_files_unmeasurable e :
  len_region_aggregations (settings (inputs env)) = Raise e ->
  respects same_files (cell5 ext env).
Proof.
  intros Hlen.
  assert (Hblock : respects same_files (transmission_block ext env)).
  { unfold transmission_block. refine (respects_bind_lift _ _ _ _).
    intros n Hn. rewrite Hlen in Hn. discriminate. }
  assert (Hstuck : forall k, is_ok (snd (transmission_block ext env k)) = false).
  { intros k. unfold transmission_block, bind, lift. rewrite Hlen. reflexivity. }
  unfold cell5.
  respects_steps_with
    ltac:(first
            [ apply new_gen_loop_same_files
            | refine (respects_bind_stuck _ _ _ Hblock Hstuck) ]).
Qed.

End Cell5Raises.


(** X5. When [settings['region_aggregations']] cannot be measured (no such
    key, or a value without a length) the notebook does not complete, and
    nothing is written: the length is taken before any table is saved. *)
Theorem unmeasurable_region_aggregations ext inp fs e :
  len_region_aggregations (settings inp) = Raise e ->
  snd (notebook ext inp fs) <> Ok tt /\
  files (fst (notebook ext inp fs)) = fs.
Proof.
  intros Hlen. unfold notebook.
  destruct (cell4 inp) as [env|e4] eqn:H4; [|split; [discriminate | reflexivity]].
  pose proof (cell4_ok _ _ H4) as (Hinp & _ & _ & _ & Hflag & _).
  unfold run_cells, bind.
  destruct (cell5 ext env (fresh_kernel fs)) as [k1 [[]|e5]] eqn:H5.
  - apply cell5_ok in H5 as (? & ? & ? & ? & ? & n & ? & _ & _ & Hn & _); [|exact Hflag].
    rewrite Hinp, Hlen in Hn. discriminate.
  - split; [discriminate|].
    rewrite <- Hinp in Hlen.
    pose proof (cell5_same_files_unmeasurable ext env e Hlen (fresh_kernel fs)) as Hsame.
    rewrite H5 in Hsame. exact Hsame.
Qed.

Lemma unmeasurable_region_aggregations_witness :
  snd (notebook Sample.pg Sample.no_regions ∅) <> Ok tt /\
  files (fst (notebook Sample.pg Sample.no_regions ∅)) = ∅.
Proof.
  apply (unmeasurable_region_aggregations Sample.pg Sample.no_regions ∅ KeyError).
  reflexivity.
Defined.

(** X6. A completed run of the notebook has called, in this order: the
    new-generator service once per planning period after the first, the
    load-curve service once, the all-generators service once, the
    misc-values service twice, the variability service and the time-domain
    reduction once each, then the transmission block when there is more
    than one region aggregation, and has then written the four tables. *)
Theorem completed_run_log ext inp fs k' :
  notebook ext inp fs = (k', Ok tt) ->
  exists n,
    len_region_aggregations (settings inp) = Ok n /\
    log k' =
      generator_calls (length (scenario_settings inp) - 1) ++
      (if Nat.ltb 1 n then transmission_events (output_path inp "transmission.csv") else []) ++
      [ToCsv (output_path inp "reduced_load_profile.csv");
       ToCsv (output_path inp "reduced_resource_profile.csv");
       ToCsv (output_path inp "all_gens.csv");
       ToCsv (output_path inp "new_gen.csv")].
Proof.
  intros Hrun.
  apply notebook_log in Hrun
    as (env & ag & ng & rrp & rlp & n & ot & H4 & Hn & Hot & _ & Hlog & _).
  exists n. split; [exact Hn|].
  rewrite Hlog. unfold computed_kernel. cbn [log fresh_kernel].
  rewrite !(csv_path_output inp env _ H4).
  apply cell4_ok in H4 as (_ & Hp & _).
  rewrite Hp. replace (length (tail (map fst (scenario_settings inp))))
    with (length (scenario_settings inp) - 1)%nat
    by (destruct (scenario_settings inp); simpl; rewrite ?length_map; lia).
  unfold generator_calls. rewrite app_nil_l, <- !app_assoc.
  destruct ot as [t|].
  - destruct Hot as [Hlt _]. apply Nat.ltb_lt in Hlt. rewrite Hlt. reflexivity.
  - apply Nat.ltb_ge in Hot. rewrite Hot. reflexivity.
Qed.

Lemma completed_run_log_witness :
  exists n, log (fst (notebook Sample.pg Sample.three_periods ∅)) =
    generator_calls 2 ++ n.
Proof.
  destruct (completed_run_log Sample.pg Sample.three_periods ∅
              (fst (notebook Sample.pg Sample.three_periods ∅)))
    as (n & _ & Hlog).
  - vm_compute. reflexivity.
  - eexists. exact Hlog.
Defined.

(** ** More on post-processing (cell 7) *)

(** X7. Post-processing works on [all_gens] and [all_gens_multi_year]
    only: whether it completes or raises, the files, the log and the other
    tables are as they were.  In particular the combined table is never
    written to a file. *)
Theorem post_processing_keeps_the_rest ext env k :
  files (fst (cell7 ext env k)) = files k /\
  log (fst (cell7 ext env k)) = log k /\
  new_gen (fst (cell7 ext env k)) = new_gen k /\
  reduced_resource_profile (fst (cell7 ext env k)) = reduced_resource_profile k /\
  reduced_load_profile (fst (cell7 ext env k)) = reduced_load_profile k /\
  transmission (fst (cell7 ext env k)) = transmission k.
Proof.
  assert (H : respects keeps_rest (cell7 ext env)).
  { unfold cell7. respects_steps. }
  exact (H k).
Qed.

(** The converse of [cell7_ok]. *)
Lemma cell7_eval ext env k ag ng s m y :
  all_gens k = Some ag -> new_gen k = Some ng ->
  tech_series ext ag = Ok s ->
  concat_restrict (set_series ag "tech" s) ng = Ok m ->
  first_period env = Ok y ->
  has_column (columns m) "operating_year" = true ->
  existsb is_str (operating_years m) = false ->
  cell7 ext env k =
    (mkKernel (files k) (log k) (Some ng) (Some (set_series ag "tech" s))
              (reduced_resource_profile k) (reduced_load_profile k)
              (transmission k) (Some (fill_zero y (fill_nan y m))), Ok tt).
Proof.
  intros Hag Hng Hs Hm Hy Hcol Hstr. unfold concat_restrict in Hm.
  unfold cell7, bind, read, lift, set_all_gens, set_all_gens_multi_year.
  rewrite Hag, Hs. cbn [all_gens new_gen all_gens_multi_year]. rewrite Hng.
  cbn [all_gens new_gen all_gens_multi_year]. rewrite Hm, Hy.
  unfold attr_column. rewrite Hcol. unfold np_isnan.
  fold (operating_years m). rewrite Hstr.
  cbn [all_gens new_gen all_gens_multi_year columns set_where files log
       reduced_resource_profile reduced_load_profile transmission].
  rewrite Hcol. reflexivity.
Qed.

(** Cell 7 up to the first access to the operating-year column. *)
Lemma cell7_until_years ext env k ag ng s y :
  all_gens k = Some ag -> new_gen k = Some ng ->
  tech_series ext ag = Ok s ->
  first_period env = Ok y ->
  exists m,
    concat_restrict (set_series ag "tech" s) ng = Ok m /\
    columns m = with_column (columns ag) "tech" /\
    cell7 ext env k =
      match attr_column m "operating_year" with
      | Raise e =>
          (mkKernel (files k) (log k) (Some ng) (Some (set_series ag "tech" s))
                    (reduced_resource_profile k) (reduced_load_profile k)
                    (transmission k) (Some m), Raise e)
      | Ok oy =>
          match np_isnan oy with
          | Raise e =>
              (mkKernel (files k) (log k) (Some ng) (Some (set_series ag "tech" s))
                        (reduced_resource_profile k) (reduced_load_profile k)
                        (transmission k) (Some m), Raise e)
          | Ok _ =>
              (mkKernel (files k) (log k) (Some ng) (Some (set_series ag "tech" s))
                        (reduced_resource_profile k) (reduced_load_profile k)
                        (transmission k) (Some (fill_zero y (fill_nan y m))), Ok tt)
          end
      end.
Proof.
  intros Hag Hng Hs Hy.
  destruct (concat_restrict_total (set_series ag "tech" s) ng) as [m Hm].
  exists m. split; [exact Hm|].
  split; [apply (concat_restrict_ok _ _ _ Hm)|].
  unfold concat_restrict in Hm.
  unfold cell7, bind, read, lift, set_all_gens, set_all_gens_multi_year.
  rewrite Hag, Hs. cbn [all_gens new_gen all_gens_multi_year]. rewrite Hng.
  cbn [all_gens new_gen all_gens_multi_year]. rewrite Hm, Hy.
  cbn [all_gens new_gen all_gens_multi_year files log
       reduced_resource_profile reduced_load_profile transmission].
  unfold attr_column at 1 3.
  destruct (has_column (columns m) "operating_year") eqn:Hcol; [|reflexivity].
  unfold np_isnan. fold (operating_years m).
  destruct (existsb is_str (operating_years m)); [reflexivity|].
  cbn [all_gens new_gen all_gens_multi_year columns set_where files log
       reduced_resource_profile reduced_load_profile transmission attr_column].
  unfold attr_column. cbn [columns set_where]. rewrite Hcol. reflexivity.
Qed.

(** X8. The operating years are read from the columns of the start-year
    table: when [all_gens] has no [operating_year] column, cell 7 raises
    AttributeError, whatever [new_gen] holds, and by then it has written
    the key column on [all_gens] and bound [all_gens_multi_year] to the
    concatenation under the start-year columns. *)
Theorem no_operating_year_column ext env k ag ng s y :
  all_gens k = Some ag -> new_gen k = Some ng ->
  tech_series ext ag = Ok s ->
  first_period env = Ok y ->
  has_column (columns ag) "operating_year" = false ->
  exists m,
    concat_restrict (set_series ag "tech" s) ng = Ok m /\
    cell7 ext env k =
      (mkKernel (files k) (log k) (Some ng) (Some (set_series ag "tech" s))
                (reduced_resource_profile k) (reduced_load_profile k)
                (transmission k) (Some m), Raise AttributeError).
Proof.
  intros Hag Hng Hs Hy Hcol.
  destruct (cell7_until_years ext env k ag ng s y Hag Hng Hs Hy) as (m & Hm & Hc & E).
  exists m. split; [exact Hm|]. rewrite E. unfold attr_column.
  rewrite Hc, has_with_column_other by discriminate. rewrite Hcol. reflexivity.
Qed.

Lemma no_operating_year_column_witness :
  snd (cell7 Sample.pg (Sample.env_of Sample.two_periods)
             (Sample.loaded Sample.gens_without_year
                (tag_period 2030 Sample.new_builds))) = Raise AttributeError.
Proof.
  destruct (no_operating_year_column Sample.pg (Sample.env_of Sample.two_periods)
              (Sample.loaded Sample.gens_without_year (tag_period 2030 Sample.new_builds))
              Sample.gens_without_year (tag_period 2030 Sample.new_builds)
              [Str "coal-CA-1"] 2025)
    as (m & _ & E).
  - reflexivity.
  - reflexivity.
  - reflexivity.
  - reflexivity.
  - reflexivity.
  - rewrite E. reflexivity.
Defined.

(** X9. An operating year given as text, in either table, makes cell 7
    raise TypeError at [np.isnan], with [all_gens_multi_year] left as the
    concatenation before any fill. *)
Theorem text_operating_year ext env k ag ng s y :
  all_gens k = Some ag -> new_gen k = Some ng ->
  tech_series ext ag = Ok s ->
  first_period env = Ok y ->
  has_column (columns ag) "operating_year" = true ->
  existsb is_str (operating_years ag ++ operating_years ng) = true ->
  exists m,
    concat_restrict (set_series ag "tech" s) ng = Ok m /\
    cell7 ext env k =
      (mkKernel (files k) (log k) (Some ng) (Some (set_series ag "tech" s))
                (reduced_resource_profile k) (reduced_load_profile k)
                (transmission k) (Some m), Raise TypeError).
Proof.
  intros Hag Hng Hs Hy Hcol Hstr.
  destruct (cell7_until_years ext env k ag ng s y Hag Hng Hs Hy) as (m & Hm & Hc & E).
  exists m. split; [exact Hm|]. rewrite E.
  assert (Hcol' : has_column (columns m) "operating_year" = true).
  { rewrite Hc, has_with_column_other by discriminate. exact Hcol. }
  unfold attr_column. rewrite Hcol'. unfold np_isnan.
  pose proof (concat_restrict_ok _ _ _ Hm) as (Hc' & _ & Hv).
  rewrite Hv by (rewrite <- Hc'; exact Hcol').
  rewrite column_values_set_series_other
    by (discriminate || apply (tech_series_ok ext ag s Hs)).
  fold (operating_years ag). fold (operating_years ng). rewrite Hstr. reflexivity.
Qed.

Lemma text_operating_year_witness :
  snd (cell7 Sample.pg (Sample.env_of Sample.two_periods)
             (Sample.loaded Sample.gens_with_text_year
                (tag_period 2030 Sample.new_builds))) = Raise TypeError.
Proof.
  destruct (text_operating_year Sample.pg (Sample.env_of Sample.two_periods)
              (Sample.loaded Sample.gens_with_text_year (tag_period 2030 Sample.new_builds))
              Sample.gens_with_text_year (tag_period 2030 Sample.new_builds)
              [Str "coal-CA-1"] 2025)
    as (m & _ & E).
  - reflexivity.
  - reflexivity.
  - reflexivity.
  - reflexivity.
  - reflexivity.
  - reflexivity.
  - rewrite E. reflexivity.
Defined.

(** X10. Post-processing changes no value but the key and the operating
    year: in the combined table every other column of the start-year table
    is that column as [all_gens] had it followed by the column of
    [new_gen], missing where [new_gen] has no such column. *)
Theorem other_columns_kept ext env k k' ag ng c :
  cell7 ext env k = (k', Ok tt) ->
  all_gens k = Some ag -> new_gen k = Some ng ->
  In c (columns ag) -> c <> "tech" -> c <> "operating_year" ->
  exists m,
    all_gens_multi_year k' = Some m /\
    column_values m c = column_values ag c ++ column_values ng c /\
    (~ In c (columns ng) ->
     column_values m c = column_values ag c ++ repeat NaN (length (rows ng))).
Proof.
  intros H Hag' Hng' Hin Hnt Hny.
  apply cell7_ok in H as (ag0 & ng0 & s & m0 & y & Hag & Hng & Hs & Hm0 & Hy & Hcol & Hstr & ->).
  rewrite Hag' in Hag. injection Hag as <-. rewrite Hng' in Hng. injection Hng as <-.
  apply concat_restrict_ok in Hm0 as (Hc & _ & Hv).
  exists (fill_zero y (fill_nan y m0)). kernel_simpl.
  assert (E : column_values (fill_zero y (fill_nan y m0)) c =
              column_values ag c ++ column_values ng c).
  { rewrite fill_other by assumption.
    rewrite Hv.
    - rewrite column_values_set_series_other
        by (assumption || apply (tech_series_ok ext ag s Hs)).
      reflexivity.
    - simpl. rewrite has_with_column_other by exact Hnt. apply has_column_In, Hin. }
  split; [reflexivity|]. split; [exact E|].
  intros Hno. rewrite E. f_equal. apply column_values_absent, has_column_false, Hno.
Qed.

Lemma other_columns_kept_witness :
  exists m,
    all_gens_multi_year (Sample.finished Sample.two_periods) = Some m /\
    column_values m "region" = [Str "CA"; Str "TX"; Str "TX"; Str "CA"].
Proof.
  destruct (other_columns_kept Sample.pg (Sample.env_of Sample.two_periods)
              (Sample.computed Sample.two_periods) (Sample.finished Sample.two_periods)
              Sample.start_year_gens (tag_period 2030 Sample.new_builds) "region")
    as (m & Hm & Hv & _).
  - vm_compute. reflexivity.
  - vm_compute. reflexivity.
  - vm_compute. reflexivity.
  - simpl. auto.
  - discriminate.
  - discriminate.
  - exists m. split; [exact Hm|]. rewrite Hv. reflexivity.
Defined.

(** ** Running cell 7 again *)

Lemma combine_map_l {A B C} (g : A * B -> C) (l : list A) (s : list B) :
  combine (map g (combine l s)) s = map (fun rv => (g rv, snd rv)) (combine l s).
Proof.
  revert s. induction l as [|x l IH]; intros [|v s]; simpl; try reflexivity.
  f_equal. apply IH.
Qed.

Lemma row_set_again cols r c v :
  row_set (with_column cols c) (row_set cols r c v) c v = row_set cols r c v.
Proof.
  unfold row_set at 1.
  rewrite (with_column_has _ _ (has_with_column cols c)).
  unfold row_set. apply map_ext_in. intros c' Hin.
  destruct (String.eqb c' c) eqn:E; [reflexivity|].
  rewrite row_get_map. apply has_column_In in Hin. rewrite Hin, E. reflexivity.
Qed.

Lemma set_series_again df c s :
  set_series (set_series df c s) c s = set_series df c s.
Proof.
  unfold set_series at 1. cbn [columns rows set_series].
  rewrite (with_column_has _ _ (has_with_column (columns df) c)).
  unfold set_series. f_equal.
  rewrite combine_map_l, map_map. apply map_ext. intros rv. simpl.
  f_equal. apply row_set_again.
Qed.

Lemma loc_column_set_series_other df c s c' :
  c' <> c -> length s = length (rows df) ->
  loc_column (set_series df c s) c' = loc_column df c'.
Proof.
  intros Hne Hlen. unfold loc_column. simpl.
  rewrite has_with_column_other by exact Hne.
  rewrite column_values_set_series_other by assumption. reflexivity.
Qed.

Lemma tech_series_again ext ag s :
  tech_series ext ag = Ok s ->
  tech_series ext (set_series ag "tech" s) = Ok s.
Proof.
  intros Hs. pose proof (proj1 (tech_series_ok ext ag s Hs)) as Hlen.
  transitivity (tech_series ext ag); [|exact Hs]. unfold tech_series.
  rewrite !loc_column_set_series_other by (discriminate || exact Hlen).
  reflexivity.
Qed.

(** X11. Running the post-processing cell a second time changes nothing:
    the key column is overwritten in place with the same keys, and the
    combined table is built again as it was. *)
Theorem post_processing_again ext env k k' :
  cell7 ext env k = (k', Ok tt) -> cell7 ext env k' = (k', Ok tt).
Proof.
  intros H.
  apply cell7_ok in H as (ag & ng & s & m & y & Hag & Hng & Hs & Hm & Hy & Hcol & Hstr & ->).
  assert (Hm' : concat_restrict
                  (set_series (set_series ag "tech" s) "tech" s) ng = Ok m)
    by (rewrite set_series_again; exact Hm).
  match goal with
  | |- cell7 ext env ?K = _ =>
      rewrite (cell7_eval ext env K (set_series ag "tech" s) ng s m y
                 eq_refl eq_refl (tech_series_again ext ag s Hs) Hm' Hy Hcol Hstr)
  end.
  kernel_simpl. rewrite set_series_again. reflexivity.
Qed.

Lemma post_processing_again_witness :
  cell7 Sample.pg (Sample.env_of Sample.two_periods) (Sample.finished Sample.two_periods)
  = (Sample.finished Sample.two_periods, Ok tt).
Proof.
  apply (post_processing_again Sample.pg (Sample.env_of Sample.two_periods)
           (Sample.computed Sample.two_periods)).
  vm_compute. reflexivity.
Defined.

(** ** What the loop of cell 5 accumulates *)

Lemma labels_concat a b :
  map fst (rows (concat a b)) = map fst (rows a) ++ map fst (rows b).
Proof. unfold concat. simpl. rewrite map_app, !map_map. reflexivity. Qed.

Lemma labels_tag_period y out : map fst (rows (tag_period y out)) = map fst (rows out).
Proof. unfold tag_period, set_scalar. simpl. rewrite map_map. reflexivity. Qed.

Lemma column_values_tag_period y out c :
  c <> "operating_year" -> column_values (tag_period y out) c = column_values out c.
Proof.
  intros Hne. unfold column_values, tag_period, set_scalar. simpl. rewrite map_map.
  apply map_ext. intros r. simpl. apply row_get_set_other, Hne.
Qed.

Lemma accumulate_labels acc later outs :
  length outs = length later ->
  map fst (rows (accumulate acc later outs)) =
  map fst (rows acc) ++ flat_map (fun out => map fst (rows out)) outs.
Proof.
  revert acc outs. induction later as [|y later IH]; intros acc [|out outs] Hlen;
    simpl in *; try discriminate; try (rewrite app_nil_r; reflexivity).
  rewrite IH by lia. rewrite labels_concat, labels_tag_period, <- app_assoc. reflexivity.
Qed.

Lemma accumulate_values acc later outs c :
  length outs = length later -> c <> "operating_year" ->
  column_values (accumulate acc later outs) c =
  column_values acc c ++ flat_map (fun out => column_values out c) outs.
Proof.
  intros Hlen Hne. revert acc outs Hlen.
  induction later as [|y later IH]; intros acc [|out outs] Hlen;
    simpl in *; try discriminate; try (rewrite app_nil_r; reflexivity).
  rewrite IH by lia.
  rewrite column_values_concat, column_values_tag_period, <- app_assoc by exact Hne.
  reflexivity.
Qed.

(** X12. The table that cell 5 hands to the misc-values service as
    [new_gen] holds the rows the new-generator service returned for the
    later periods, in the order of the periods, each under the index label
    it came with (the index is not renumbered, so labels repeat from one
    period to the next) and with its values in every column but
    [operating_year] as returned. *)
Theorem accumulated_rows ext env k k' :
  cell5 ext env k = (k', Ok tt) -> run_new env = 1 ->
  exists outs acc ng,
    new_builds_of ext env (tail (all_periods env)) outs /\
    add_misc_gen_values ext acc (settings (inputs env)) = Ok ng /\
    new_gen k' = Some ng /\
    map fst (rows acc) = flat_map (fun out => map fst (rows out)) outs /\
    forall c, c <> "operating_year" ->
              column_values acc c = flat_map (fun out => column_values out c) outs.
Proof.
  intros H5 Hflag.
  apply cell5_ok in H5
    as (outs & ag & ng & rrp & rlp & n & ot & Houts & Hstart & _ & _ & ->); [|exact Hflag].
  destruct Hstart as (s0 & lc & ag0 & gv & lds & _ & _ & _ & _ & Hmisc & _).
  assert (Hlen : length outs = length (tail (all_periods env))).
  { symmetry. eapply Forall2_length, Houts. }
  exists outs, (accumulate empty_frame (tail (all_periods env)) outs), ng.
  split; [exact Houts|]. split; [exact Hmisc|]. split; [reflexivity|]. split.
  - rewrite accumulate_labels by exact Hlen. reflexivity.
  - intros c Hc. rewrite accumulate_values by assumption. reflexivity.
Qed.

Lemma accumulated_rows_witness :
  exists ng,
    new_gen (Sample.computed Sample.three_periods) = Some ng /\
    map fst (rows ng) = [O; O] /\
    column_values ng "Resource" = [Str "solar"; Str "solar"].
Proof.
  destruct (accumulated_rows Sample.pg (Sample.env_of Sample.three_periods)
              (fresh_kernel ∅) (Sample.computed Sample.three_periods))
    as (outs & acc & ng & _ & _ & Hng & _).
  - vm_compute. reflexivity.
  - reflexivity.
  - exists ng. split; [exact Hng|].
    vm_compute in Hng. injection Hng as <-. split; reflexivity.
Defined.

(** ** What a reload takes from the files (cell 6) *)

Lemma frame_of_ok ext f df :
  frame_of ext f = Ok df ->
  header f <> [] /\ map fst (rows df) = seq 0 (length (rows df)).
Proof.
  unfold frame_of. destruct (header f) as [|c cs] eqn:E; [discriminate|].
  intros H. injection H as <-. simpl. split; [discriminate|].
  rewrite length_combine, length_seq, Nat.min_id.
  apply map_fst_combine, length_seq.
Qed.

(** X13. A reload that completes has found each of the four files, and
    the transmission file when there is more than one region aggregation,
    with at least one column.  Each table is what [pd.read_csv] reads in the
    file of its own name, its rows labelled 0, 1, 2, ...; with at most one
    region aggregation the transmission file is not looked at and
    [transmission] stays as it was.  No file is changed. *)
Theorem reload_takes_the_files ext env k k' :
  cell6 ext env k = (k', Ok tt) -> run_new env <> 1 ->
  (forall name g,
     In (name, g) [("reduced_load_profile.csv", reduced_load_profile);
                   ("reduced_resource_profile.csv", reduced_resource_profile);
                   ("all_gens.csv", all_gens); ("new_gen.csv", new_gen)] ->
     exists f df,
       files k !! csv_path env name = Some f /\ header f <> [] /\
       frame_of ext f = Ok df /\ g k' = Some df /\
       map fst (rows df) = seq 0 (length (rows df))) /\
  (more_than_one_region (settings (inputs env)) ->
   exists f df,
     files k !! csv_path env "transmission.csv" = Some f /\ header f <> [] /\
     frame_of ext f = Ok df /\ transmission k' = Some df /\
     map fst (rows df) = seq 0 (length (rows df))) /\
  (~ more_than_one_region (settings (inputs env)) -> transmission k' = transmission k) /\
  files k' = files k.
Proof.
  unfold cell6. intros H Hflag. apply Z.eqb_neq in Hflag. rewrite Hflag in H.
  cbn [negb] in H.
  do 9 step H.
  match goal with
  | Hn : len_region_aggregations _ = Ok ?x |- _ => rename x into n
  end.
  repeat match goal with
         | Hr : exists f, _ /\ frame_of ext f = Ok _ |- _ =>
             let f := fresh "f" in
             let Hf := fresh "Hf" in
             let Ho := fresh "Ho" in
             let Hh := fresh "Hh" in
             let Hl := fresh "Hl" in
             destruct Hr as (f & Hf & Ho);
             pose proof (frame_of_ok _ _ _ Ho) as [Hh Hl]
         end.
  destruct (Nat.ltb_spec 1 n) as [Hlt|Hle].
  - step H.
    match goal with
    | Hr : exists f, _ /\ frame_of ext f = Ok _ |- _ =>
        destruct Hr as (f5 & Hf5 & Ho5); pose proof (frame_of_ok _ _ _ Ho5) as [Hh5 Hl5]
    end.
    apply lift_ok in H as [-> _]. kernel_simpl.
    split; [|split; [|split; [|reflexivity]]].
    + intros name g Hin. simpl in Hin.
      destruct Hin as [E|[E|[E|[E|[]]]]]; injection E as <- <-; kernel_simpl;
        eexists _, _; (split; [eassumption|]); (split; [assumption|]);
        (split; [eassumption|]); (split; [reflexivity | assumption]).
    + intros _. eexists _, _. split; [eassumption|]. split; [assumption|].
      split; [eassumption|]. split; [reflexivity | assumption].
    + intros Hone. exfalso. apply Hone. exists n. auto.
  - injection H as <-. kernel_simpl.
    split; [|split; [|split; [|reflexivity]]].
    + intros name g Hin. simpl in Hin.
      destruct Hin as [E|[E|[E|[E|[]]]]]; injection E as <- <-; kernel_simpl;
        eexists _, _; (split; [eassumption|]); (split; [assumption|]);
        (split; [eassumption|]); (split; [reflexivity | assumption]).
    + intros (n' & Hn' & Hlt).
      match goal with Hn : len_region_aggregations _ = Ok n |- _ => rewrite Hn in Hn' end.
      injection Hn' as <-. lia.
    + intros _. reflexivity.
Qed.

Lemma reload_takes_the_files_witness :
  exists df,
    new_gen (fst (cell6 Sample.pg (with_run_new 0 (Sample.env_of Sample.three_periods))
                        (Sample.computed Sample.three_periods))) = Some df /\
    map fst (rows df) = [O; 1%nat].
Proof.
  destruct (reload_takes_the_files Sample.pg
              (with_run_new 0 (Sample.env_of Sample.three_periods))
              (Sample.computed Sample.three_periods)
              (fst (cell6 Sample.pg (with_run_new 0 (Sample.env_of Sample.three_periods))
                          (Sample.computed Sample.three_periods))))
    as (Hfour & _).
  - vm_compute. reflexivity.
  - discriminate.
  - destruct (Hfour "new_gen.csv" new_gen) as (f & df & _ & _ & _ & Hdf & Hlab).
    + simpl. auto 6.
    + exists df. split; [exact Hdf|].
      rewrite Hlab. vm_compute in Hdf. injection Hdf as <-. reflexivity.
Defined.

(** ** What the files of a fresh computation hold *)

(** X14. In a completed run the start-year tables are composed as
    follows: [all_gens] is the all-generators table of the start year's
    scenario passed through the misc-values service with the base settings;
    the reduced profiles come from the time-domain reduction of that
    table's variability and the start year's load curves.  Each file holds
    its table as it stood when cell 5 ended: the [all_gens] file is the
    table without the key column that cell 7 adds in memory. *)
Theorem generator_tables_composed ext inp fs k' :
  notebook ext inp fs = (k', Ok tt) ->
  exists env s0 lc ag0 ag gv rrp rlp lds ng s,
    cell4 inp = Ok env /\
    scenario_of env (start_year env) = Ok s0 /\
    make_final_load_curves ext s0 = Ok lc /\
    create_all_generators ext s0 = Ok ag0 /\
    add_misc_gen_values ext ag0 (settings inp) = Ok ag /\
    make_generator_variability ext ag = Ok gv /\
    reduce_time_domain ext gv lc s0 = Ok (rrp, rlp, lds) /\
    reduced_resource_profile k' = Some rrp /\
    reduced_load_profile k' = Some rlp /\
    new_gen k' = Some ng /\
    all_gens k' = Some (set_series ag "tech" s) /\
    files k' !! output_path inp "reduced_load_profile.csv" = Some (csv_of rlp) /\
    files k' !! output_path inp "reduced_resource_profile.csv" = Some (csv_of rrp) /\
    files k' !! output_path inp "all_gens.csv" = Some (csv_of ag) /\
    files k' !! output_path inp "new_gen.csv" = Some (csv_of ng).
Proof.
  intros Hrun. apply notebook_ok in Hrun as (env & k1 & H4 & H5 & H7).
  pose proof (cell4_ok _ _ H4) as (Hinp & _ & _ & _ & Hflag & _).
  apply cell5_ok in H5
    as (outs & ag & ng & rrp & rlp & n & ot & _ & Hstart & _ & _ & ->); [|exact Hflag].
  destruct Hstart as (s0 & lc & ag0 & gv & lds & Hs0 & Hlc & Hag0 & Hag & _ & Hgv & Hred).
  apply cell7_ok in H7 as (ag1 & ng1 & s & m & y & Ha & Hn & _ & _ & _ & _ & _ & ->).
  unfold computed_kernel in *. kernel_simpl.
  injection Ha as <-. injection Hn as <-. rewrite Hinp in Hag.
  rewrite <- !(csv_path_output inp env _ H4).
  exists env, s0, lc, ag0, ag, gv, rrp, rlp, lds, ng, s.
  repeat split; try assumption; try reflexivity.
  - rewrite !lookup_insert_ne by (apply csv_path_ne; discriminate). apply lookup_insert_eq.
  - rewrite !lookup_insert_ne by (apply csv_path_ne; discriminate). apply lookup_insert_eq.
  - rewrite !lookup_insert_ne by (apply csv_path_ne; discriminate). apply lookup_insert_eq.
  - apply lookup_insert_eq.
Qed.

Lemma generator_tables_composed_witness :
  exists f,
    files (fst (notebook Sample.pg Sample.two_periods ∅))
      !! output_path Sample.two_periods "all_gens.csv" = Some f /\
    header f = ["Resource"; "region"; "cluster"; "operating_year"].
Proof.
  destruct (generator_tables_composed Sample.pg Sample.two_periods ∅
              (fst (notebook Sample.pg Sample.two_periods ∅)))
    as (env & s0 & lc & ag0 & ag & gv & rrp & rlp & lds & ng & s &
        _ & _ & _ & Hag0 & Hag & _ & _ & _ & _ & _ & _ & _ & _ & Hf & _).
  - vm_compute. reflexivity.
  - exists (csv_of ag). split; [exact Hf|].
    injection Hag0 as <-. injection Hag as <-. reflexivity.
Defined.

(** X15. With a single planning period the loop does not run and
    [new_gen] is the empty table of [pd.DataFrame()].  When the misc-values
    service returns it as it is and the three other tables have columns,
    the file written for it has no column, and a later reload over these
    files raises EmptyDataError. *)
Theorem single_period_reload_raises ext env k0 k1 flag kr :
  run_new env = 1 ->
  tail (all_periods env) = [] ->
  cell5 ext env k0 = (k1, Ok tt) ->
  add_misc_gen_values ext empty_frame (settings (inputs env)) = Ok empty_frame ->
  flag <> 1 ->
  files kr = files k1 ->
  (forall df, In (Some df) [reduced_load_profile k1; reduced_resource_profile k1;
                            all_gens k1] -> columns df <> []) ->
  new_gen k1 = Some empty_frame /\
  snd (cell6 ext (with_run_new flag env) kr) = Raise EmptyDataError.
Proof.
  intros Hflag Hlater H5 Hmisc Hne Hfiles Hcols.
  apply cell5_ok in H5
    as (outs & ag & ng & rrp & rlp & n & ot & Houts & Hstart & Hn & Hot & ->); [|exact Hflag].
  destruct Hstart as (s0 & lc & ag0 & gv & lds & _ & _ & _ & _ & Hng & _).
  rewrite Hlater in Hng. simpl in Hng. rewrite Hmisc in Hng. injection Hng as <-.
  unfold computed_kernel in *. kernel_simpl.
  split; [reflexivity|].
  assert (Hrlp : columns rlp <> []) by (apply Hcols; simpl; auto).
  assert (Hrrp : columns rrp <> []) by (apply Hcols; simpl; auto).
  assert (Hag : columns ag <> []) by (apply Hcols; simpl; auto).
  assert (F1 : files kr !! csv_path env "reduced_load_profile.csv" = Some (csv_of rlp)).
  { rewrite Hfiles, !lookup_insert_ne by (apply csv_path_ne; discriminate).
    apply lookup_insert_eq. }
  assert (F2 : files kr !! csv_path env "reduced_resource_profile.csv" = Some (csv_of rrp)).
  { rewrite Hfiles, !lookup_insert_ne by (apply csv_path_ne; discriminate).
    apply lookup_insert_eq. }
  assert (F3 : files kr !! csv_path env "all_gens.csv" = Some (csv_of ag)).
  { rewrite Hfiles, !lookup_insert_ne by (apply csv_path_ne; discriminate).
    apply lookup_insert_eq. }
  assert (F4 : files kr !! csv_path env "new_gen.csv" = Some (csv_of empty_frame)).
  { rewrite Hfiles. apply lookup_insert_eq. }
  assert (Hz : Z.eqb flag 1 = false) by (apply Z.eqb_neq, Hne).
  unfold cell6. cbn [run_new with_run_new inputs]. rewrite Hz. cbn [negb].
  change (csv_path (with_run_new flag env)) with (csv_path env).
  unfold read_csv, emit, add_log, set_reduced_load_profile,
    set_reduced_resource_profile, set_all_gens, set_new_gen, bind.
  cbn [files log new_gen all_gens reduced_resource_profile
       reduced_load_profile transmission all_gens_multi_year].
  rewrite F1, (frame_of_csv_of ext rlp Hrlp).
  cbn [files log new_gen all_gens reduced_resource_profile
       reduced_load_profile transmission all_gens_multi_year].
  rewrite F2, (frame_of_csv_of ext rrp Hrrp).
  cbn [files log new_gen all_gens reduced_resource_profile
       reduced_load_profile transmission all_gens_multi_year].
  rewrite F3, (frame_of_csv_of ext ag Hag).
  cbn [files log new_gen all_gens reduced_resource_profile
       reduced_load_profile transmission all_gens_multi_year].
  rewrite F4. reflexivity.
Qed.

Lemma single_period_reload_raises_witness :
  snd (cell6 Sample.pg (with_run_new 0 (Sample.env_of Sample.one_period))
             (Sample.computed Sample.one_period)) = Raise EmptyDataError.
Proof.
  refine (proj2 (single_period_reload_raises Sample.pg (Sample.env_of Sample.one_period)
                   (fresh_kernel ∅) (Sample.computed Sample.one_period) 0
                   (Sample.computed Sample.one_period) _ _ _ _ _ _ _)).
  - reflexivity.
  - reflexivity.
  - vm_compute. reflexivity.
  - reflexivity.
  - discriminate.
  - reflexivity.
  - intros df Hin. vm_compute in Hin.
    destruct Hin as [H|[H|[H|[]]]]; injection H as <-; discriminate.
Defined.

(** ** A scenario that is not defined *)

Lemma scenario_of_unknown env y :
  (forall y' d, In (y', d) (scenario_settings (inputs env)) ->
                d !! scenario (inputs env) = None) ->
  scenario_of env y = Raise KeyError.
Proof.
  intros Hno. unfold scenario_of.
  induction (scenario_settings (inputs env)) as [|[y' d] l IH]; simpl; [reflexivity|].
  destruct (Z.eqb y y').
  - simpl. unfold getitem. rewrite (Hno y' d); [reflexivity | simpl; auto].
  - apply IH. intros y'' d' Hin. apply (Hno y'' d'). simpl. auto.
Qed.

(** X16. When the scenario name is defined for none of the planning
    periods, the notebook raises KeyError at the first lookup of the
    scenario settings: no service has been called and no file written. *)
Theorem unknown_scenario ext inp fs :
  scenario_settings inp <> [] ->
  (forall y d, In (y, d) (scenario_settings inp) -> d !! scenario inp = None) ->
  snd (notebook ext inp fs) = Raise KeyError /\
  log (fst (notebook ext inp fs)) = [] /\
  files (fst (notebook ext inp fs)) = fs.
Proof.
  intros Hne Hno. unfold notebook.
  destruct (cell4 inp) as [env|e] eqn:H4.
  - pose proof (cell4_ok _ _ H4) as (Hinp & _ & _ & _ & Hflag & _).
    assert (Hk : forall y, scenario_of env y = Raise KeyError).
    { intros y. apply scenario_of_unknown. rewrite Hinp. exact Hno. }
    unfold run_cells, cell5. rewrite Hflag. cbn [Z.eqb Pos.eqb].
    unfold new_gen_loop.
    destruct (tail (all_periods env)) as [|y later].
    + cbn [for_each]. unfold bind, set_new_gen, ret, lift. rewrite Hk. auto.
    + cbn [for_each]. unfold new_gen_body, bind, set_new_gen, lift. rewrite Hk. auto.
  - exfalso. unfold cell4 in H4.
    destruct (scenario_settings inp); [contradiction | discriminate].
Qed.

Lemma unknown_scenario_witness :
  snd (notebook Sample.pg Sample.unknown_scenario ∅) = Raise KeyError.
Proof.
  refine (proj1 (unknown_scenario Sample.pg Sample.unknown_scenario ∅ _ _)).
  - discriminate.
  - intros y d Hin. simpl in Hin.
    destruct Hin as [H|[H|[]]]; injection H as _ <-; reflexivity.
Defined.
